(** * HIFIS-model, Azure pipeline steps

    A shallow embedding of the two pipeline scripts

      - [src/azure/preprocess_step/preprocess_step.py]
      - [src/azure/train_step/train_step.py]

    Both scripts load a YAML configuration, relocate a fixed set of
    [PATHS] entries under directories given on the command line, make
    sure an output directory exists and then call into collaborators
    that live outside the two files.  The training script also defines
    the Keras callback [LogRunMetrics].

    Python values are modelled as follows.
      - [str] is [string]; the only character the scripts inspect is
        ['/'], a single byte that never occurs inside a multi-byte
        UTF-8 sequence, so splitting the byte string is splitting the
        text.
      - a YAML document is the tree [yaml]; mappings are [gmap]s from
        string keys (key order plays no role in the scripts).
      - [int] is [Z].
      - a raised exception is the [Raise] case of [result]; the scripts
        catch nothing, so the first exception ends the run.
      - an [argparse] option without default is an [option string]:
        [None] when the flag is not given. *)

From stdpp Require Import gmap strings list fin_maps pretty.
From Stdlib Require Import ZArith Ascii.

#[local] Open Scope string_scope.
#[local] Open Scope Z_scope.
#[local] Open Scope stdpp_scope.
#[local] Open Scope list_scope.

#[local] Set Warnings "-register-all".

(** ** Python primitives used by the scripts *)

Module Py.

Inductive exn : Type :=
| KeyError (key : string)
| TypeError
| AttributeError
| IndexError
| FileExistsError
| FileNotFoundError
| NotADirectoryError
| CollaboratorError (who : string).

Inductive result (A : Type) : Type :=
| Ok (a : A)
| Raise (e : exn).
Arguments Ok {A} a.
Arguments Raise {A} e.

(** Sequencing: the first exception ends the computation. *)
#[global] Instance result_bind : MBind result := λ A B k r,
  match r with
  | Ok a => k a
  | Raise e => Raise e
  end.

#[global] Instance result_ret : MRet result := λ A a, Ok a.

(** Code with effects on a state [S] (the filesystem, the calls made
    on collaborators): what happened before an exception stays. *)
Definition st (S A : Type) : Type := S → result A * S.

#[global] Instance st_bind {S : Type} : MBind (st S) := λ A B k m s,
  match m s with
  | (Ok a, s') => k a s'
  | (Raise e, s') => (Raise e, s')
  end.

#[global] Instance st_ret {S : Type} : MRet (st S) := λ A a s, (Ok a, s).

(** A computation without effect on the state. *)
Definition lift {S A : Type} (r : result A) : st S A := λ s, (r, s).

(** [try: m  except FileExistsError: pass] *)
Definition except_FileExistsError_pass {S : Type} (m : st S unit) : st S unit :=
  λ s,
    match m s with
    | (Raise FileExistsError, s') => (Ok (), s')
    | r => r
    end.

(** [for x in l: body(x)] *)
Fixpoint for_each {S A : Type} (l : list A) (body : A → st S unit) : st S unit :=
  match l with
  | [] => mret ()
  | x :: l' => _ ← body x; for_each l' body
  end.

(** What [yaml.full_load] returns. *)
Inductive yaml : Type :=
| YNull
| YBool (b : bool)
| YInt (z : Z)
| YStr (s : string)
| YSeq (l : list yaml)
| YMap (m : gmap string yaml).

(** [obj[key]] with a string key.  Only a mapping answers; a missing
    key is a [KeyError], any other receiver a [TypeError]. *)
Definition getitem (obj : yaml) (key : string) : result yaml :=
  match obj with
  | YMap m =>
      match m !! key with
      | Some v => Ok v
      | None => Raise (KeyError key)
      end
  | _ => Raise TypeError
  end.

(** [obj[key] = v] with a string key; the updated mapping is returned. *)
Definition setitem (obj : yaml) (key : string) (v : yaml) : result yaml :=
  match obj with
  | YMap m => Ok (YMap (<[key := v]> m))
  | _ => Raise TypeError
  end.

(** [s.split(sep)] for a one-character separator: the segments between
    the occurrences of [sep], never an empty list. *)
Fixpoint split (sep : Ascii.ascii) (s : string) : list string :=
  match s with
  | EmptyString => [EmptyString]
  | String c s' =>
      if Ascii.eqb c sep then EmptyString :: split sep s'
      else match split sep s' with
           | seg :: rest => String c seg :: rest
           | [] => [String c EmptyString]
           end
  end.

(** [obj.split('/')]: only [str] has the method. *)
Definition str_split (obj : yaml) (sep : Ascii.ascii) : result (list string) :=
  match obj with
  | YStr s => Ok (split sep s)
  | _ => Raise AttributeError
  end.

(** [l[-1]] *)
Definition index_last {A : Type} (l : list A) : result A :=
  match last l with
  | Some x => Ok x
  | None => Raise IndexError
  end.

(** [a + '/'] where [a] comes from [argparse]: [None + str] is a
    [TypeError]. *)
Definition add_str (a : option string) (b : string) : result string :=
  match a with
  | Some s => Ok (s +:+ b)
  | None => Raise TypeError
  end.

(** A command-line value stored into the configuration as it is. *)
Definition of_arg (a : option string) : yaml :=
  match a with
  | Some s => YStr s
  | None => YNull
  end.

(** [v is not None] *)
Definition is_not_None (v : yaml) : bool :=
  match v with
  | YNull => false
  | _ => true
  end.

(** A path argument of an [os] function: [None] is a [TypeError]. *)
Definition fspath (a : option string) : result string :=
  match a with
  | Some s => Ok s
  | None => Raise TypeError
  end.

(** [d[key]] on a [dict] with string keys. *)
Definition dict_getitem {A : Type} (d : gmap string A) (key : string) : result A :=
  match d !! key with
  | Some v => Ok v
  | None => Raise (KeyError key)
  end.

End Py.

Export Py.

(** ** The statement shape shared by both scripts

    [cfg['PATHS'][key] = args.dir + '/' + cfg['PATHS'][key].split('/')[-1]]

    Python evaluates the right-hand side first, left to right, then the
    target [cfg['PATHS']], then stores.  The inner mapping is mutated in
    place; in the tree model the updated mapping is put back under
    ['PATHS']. *)

Definition rewrite_entry (dir : option string) (key : string) (cfg : yaml)
  : result yaml :=
  prefix ← add_str dir "/";
  paths ← getitem cfg "PATHS";
  old ← getitem paths key;
  parts ← str_split old "/"%char;
  name ← index_last parts;
  target ← getitem cfg "PATHS";
  target' ← setitem target key (YStr (prefix +:+ name));
  setitem cfg "PATHS" target'.

(** [cfg['PATHS'][key] = v] *)
Definition assign_entry (key : string) (v : yaml) (cfg : yaml) : result yaml :=
  target ← getitem cfg "PATHS";
  target' ← setitem target key v;
  setitem cfg "PATHS" target'.

(** ** The part of [os] the scripts use

    A filesystem maps the component list of an absolute path to the
    kind of entry found there; the root [[]] is always a directory.
    Permissions, symbolic links and racing processes are not part of
    the model. *)

Module OS.

Inductive node : Type := File | Dir.

Definition node_at (fs : gmap (list string) node) (p : list string) : option node :=
  match p with
  | [] => Some Dir
  | _ => fs !! p
  end.

(** Every entry lies in a directory. *)
Definition wf (fs : gmap (list string) node) : Prop :=
  ∀ p c, is_Some (fs !! (p ++ [c])) → node_at fs p = Some Dir.

(** [os.path.exists(p)] *)
Definition path_exists (p : list string) : st (gmap (list string) node) bool :=
  λ fs, (Ok (bool_decide (is_Some (node_at fs p))), fs).

(** [os.mkdir(p)] *)
Definition mkdir (p : list string) : st (gmap (list string) node) unit :=
  λ fs,
    match reverse p with
    | [] => (Raise FileExistsError, fs)
    | _ :: rparent =>
        match node_at fs p with
        | Some _ => (Raise FileExistsError, fs)
        | None =>
            match node_at fs (reverse rparent) with
            | None => (Raise FileNotFoundError, fs)
            | Some File => (Raise NotADirectoryError, fs)
            | Some Dir => (Ok (), <[p := Dir]> fs)
            end
        end
    end.

(** [os.makedirs(name)] with [exist_ok=False], on the reversed
    component list: [tail] is the last component and [rhead] the
    reversed path of the parent.

      head, tail = path.split(name)
      if head and tail and not path.exists(head):
          try: makedirs(head)
          except FileExistsError: pass
      mkdir(name) *)
Fixpoint makedirs_rev (rname : list string) : st (gmap (list string) node) unit :=
  match rname with
  | [] => mkdir []
  | tail :: rhead =>
      head_exists ← path_exists (reverse rhead);
      _ ← (if negb head_exists
           then except_FileExistsError_pass (makedirs_rev rhead)
           else mret ());
      mkdir (reverse (tail :: rhead))
  end.

Definition makedirs (name : list string) : st (gmap (list string) node) unit :=
  makedirs_rev (reverse name).

End OS.

(** ** Directory provisioning

    [preprocess_step.py] lines 28-29 and [train_step.py] lines 33-34:

      if not os.path.exists(dir):
          os.makedirs(dir) *)

Definition provision (dir : list string) : st (gmap (list string) OS.node) unit :=
  found ← OS.path_exists dir;
  if negb found then OS.makedirs dir else mret ().

(** ** [preprocess_step.py] *)

Module PreprocessStep.

Record args : Type := {
  rawdatadir : option string;
  preprocessedoutputdir : option string
}.

(** Lines 14-25. *)
Definition rewrite_paths (a : args) (cfg : yaml) : result yaml :=
  cfg ← rewrite_entry (rawdatadir a) "RAW_DATA" cfg;
  cfg ← rewrite_entry (rawdatadir a) "RAW_SPDAT_DATA" cfg;
  cfg ← rewrite_entry (preprocessedoutputdir a) "PROCESSED_DATA" cfg;
  cfg ← rewrite_entry (preprocessedoutputdir a) "PROCESSED_OHE_DATA" cfg;
  cfg ← rewrite_entry (preprocessedoutputdir a) "TRAIN_SET" cfg;
  cfg ← rewrite_entry (preprocessedoutputdir a) "TEST_SET" cfg;
  cfg ← rewrite_entry (preprocessedoutputdir a) "GROUND_TRUTH" cfg;
  cfg ← rewrite_entry (preprocessedoutputdir a) "DATA_INFO" cfg;
  cfg ← rewrite_entry (preprocessedoutputdir a) "ORDINAL_COL_TRANSFORMER" cfg;
  cfg ← rewrite_entry (preprocessedoutputdir a) "OHE_COL_TRANSFORMER_MV" cfg;
  cfg ← rewrite_entry (preprocessedoutputdir a) "OHE_COL_TRANSFORMER_SV" cfg;
  mret cfg.

Section Script.

(** Values the script only passes on. *)
Variable object : Type.
(** How the operating system resolves a path string to components. *)
Variable resolve : string → list string.
(** [src.data.preprocess.preprocess], outside the two files. *)
Variable preprocess : yaml → yaml → bool → bool → bool → bool → result object.

(** The script from the loaded configuration on. *)
Definition main (a : args) (cfg : yaml) : st (gmap (list string) OS.node) object :=
  cfg ← lift (rewrite_paths a cfg);
  dir ← lift (fspath (preprocessedoutputdir a));
  _ ← provision (resolve dir);
  lift (preprocess cfg YNull true true true false).

End Script.

End PreprocessStep.

(** ** [train_step.py] *)

Module TrainStep.

Record args : Type := {
  preprocessedoutputdir : option string;
  traininglogsdir : option string;
  trainoutputdir : option string
}.

(** Lines 22-30. *)
Definition rewrite_paths (a : args) (cfg : yaml) : result yaml :=
  cfg ← rewrite_entry (preprocessedoutputdir a) "PROCESSED_DATA" cfg;
  cfg ← rewrite_entry (preprocessedoutputdir a) "PROCESSED_OHE_DATA" cfg;
  cfg ← rewrite_entry (preprocessedoutputdir a) "TRAIN_SET" cfg;
  cfg ← rewrite_entry (preprocessedoutputdir a) "TEST_SET" cfg;
  cfg ← rewrite_entry (preprocessedoutputdir a) "DATA_INFO" cfg;
  cfg ← rewrite_entry (trainoutputdir a) "SCALER_COL_TRANSFORMER" cfg;
  cfg ← rewrite_entry (trainoutputdir a) "MODEL_TO_LOAD" cfg;
  assign_entry "LOGS" (of_arg (traininglogsdir a)) cfg.

Section Script.

(** Values the script only passes on: metric values, arrays, plots,
    the trained model. *)
Variable object : Type.

(** Calls the script makes on the tracking run and on Keras. *)
Inductive call : Type :=
| run_log (name : string) (value : object)
| run_log_image (name : string) (plot : object)
| save_model (model : object) (filepath : yaml).

(** What the script acts on: the filesystem and the collaborators it
    calls, recorded in call order.  [print] output is not recorded. *)
Record world : Type := {
  fs : gmap (list string) OS.node;
  calls : list call
}.

Definition do_call (c : call) : st world unit :=
  λ w, (Ok (), {| fs := fs w; calls := calls w ++ [c] |}).

Definition on_fs {A : Type} (m : st (gmap (list string) OS.node) A) : st world A :=
  λ w, let '(r, fs') := m (fs w) in (r, {| fs := fs'; calls := calls w |}).

(** Lines 40-48.  A [dict] is iterated in insertion order; [log] is
    the list of its items in that order. *)
Record LogRunMetrics : Type := { model_counter : Z }.

Definition LogRunMetrics_init : LogRunMetrics := {| model_counter := 0 |}.

Definition on_epoch_end (self : LogRunMetrics) (epoch : Z) (log : list (string * object))
  : st world LogRunMetrics :=
  let self :=
    if bool_decide (epoch = 1)
    then {| model_counter := model_counter self + 1 |}
    else self in
  _ ← for_each log (λ item,
        do_call (run_log ((("model" +:+ pretty (model_counter self)) +:+ "_") +:+ item.1)
                         item.2));
  mret self.

(** The calls Keras makes on the callback while [multi_train] runs. *)
Fixpoint epochs_end (self : LogRunMetrics) (epochs : list (Z * list (string * object)))
  : st world LogRunMetrics :=
  match epochs with
  | [] => mret self
  | (epoch, log) :: rest => self ← on_epoch_end self epoch log; epochs_end self rest
  end.

(** Collaborators outside the two files.  They read the configuration
    they are handed and leave it as it is; [multi_train] is given by
    the epoch ends it reports and by its outcome. *)
Variable resolve : string → list string.
Variable load_dataset : yaml → result (gmap string object).
Variable multi_train :
  yaml → gmap string object → yaml → yaml →
  list (Z * list (string * object)) * result (object * list (string * object) * object).
Variable predict : object → object → yaml → result object.
Variable plot_roc : string → object → object → result object.
Variable plot_confusion_matrix : object → object → result object.

(** Lines 22-67: everything up to and including the reports on the
    test set. *)
Definition train_and_report (a : args) (cfg : yaml) : st world (yaml * object) :=
  cfg ← lift (rewrite_paths a cfg);
  dir ← lift (fspath (trainoutputdir a));
  _ ← on_fs (provision (resolve dir));
  data ← lift (load_dataset cfg);
  patience ← lift (train ← getitem cfg "TRAIN"; getitem train "PATIENCE");
  let callback := LogRunMetrics_init in
  base_log_dir ← lift (paths ← getitem cfg "PATHS"; getitem paths "LOGS");
  let '(epochs, outcome) := multi_train cfg data patience base_log_dir in
  _ ← epochs_end callback epochs;
  '(model, test_metrics, best_logs_date) ← lift outcome;
  _ ← do_call (run_log "TensorBoard logs folder" best_logs_date);
  x_test ← lift (dict_getitem data "X_test");
  batch_size ← lift (train ← getitem cfg "TRAIN"; getitem train "BATCH_SIZE");
  test_predictions ← lift (predict model x_test batch_size);
  _ ← for_each test_metrics (λ item, do_call (run_log ("test_" +:+ item.1) item.2));
  y_test ← lift (dict_getitem data "Y_test");
  roc_plt ← lift (plot_roc "Test set" y_test test_predictions);
  _ ← do_call (run_log_image "ROC" roc_plt);
  y_test ← lift (dict_getitem data "Y_test");
  cm_plt ← lift (plot_confusion_matrix y_test test_predictions);
  _ ← do_call (run_log_image "Confusion matrix" cm_plt);
  mret (cfg, model).

(** Lines 70-71. *)
Definition save_weights (cfg : yaml) (model : object) : st world unit :=
  weights ← lift (paths ← getitem cfg "PATHS"; getitem paths "MODEL_WEIGHTS");
  if is_not_None weights
  then
    filepath ← lift (paths ← getitem cfg "PATHS"; getitem paths "MODEL_TO_LOAD");
    do_call (save_model model filepath)
  else mret ().

(** The script from the loaded configuration on. *)
Definition main (a : args) (cfg : yaml) : st world unit :=
  '(cfg, model) ← train_and_report a cfg;
  save_weights cfg model.

End Script.

Arguments run_log {object} name value.
Arguments run_log_image {object} name plot.
Arguments save_model {object} model filepath.
Arguments fs {object} w.
Arguments calls {object} w.
Arguments do_call {object} c w.
Arguments on_fs {object A} m w.
Arguments on_epoch_end {object} self epoch log w.
Arguments epochs_end {object} self epochs w.
Arguments save_weights {object} cfg model w.

End TrainStep.

(** ** Vocabulary of the statements *)

(** The file name of a path: its last ['/']-separated segment. *)
Definition last_segment (s : string) : string :=
  default EmptyString (last (split "/" s)).

Fixpoint has_char (c : ascii) (s : string) : bool :=
  match s with
  | EmptyString => false
  | String c' s' => Ascii.eqb c' c || has_char c s'
  end.

(** [cfg['PATHS'][key]] as an observation: [None] when it would raise. *)
Definition paths_entry (cfg : yaml) (key : string) : option yaml :=
  match cfg with
  | YMap m =>
      match m !! "PATHS" with
      | Some (YMap p) => p !! key
      | _ => None
      end
  | _ => None
  end.

(** A run of relocation statements, one per (directory, key) pair. *)
Fixpoint rewrite_all (plan : list (option string * string)) (cfg : yaml) : result yaml :=
  match plan with
  | [] => mret cfg
  | (dir, key) :: plan' => cfg ← rewrite_entry dir key cfg; rewrite_all plan' cfg
  end.

Definition preprocess_plan (a : PreprocessStep.args) : list (option string * string) :=
  [ (PreprocessStep.rawdatadir a, "RAW_DATA");
    (PreprocessStep.rawdatadir a, "RAW_SPDAT_DATA");
    (PreprocessStep.preprocessedoutputdir a, "PROCESSED_DATA");
    (PreprocessStep.preprocessedoutputdir a, "PROCESSED_OHE_DATA");
    (PreprocessStep.preprocessedoutputdir a, "TRAIN_SET");
    (PreprocessStep.preprocessedoutputdir a, "TEST_SET");
    (PreprocessStep.preprocessedoutputdir a, "GROUND_TRUTH");
    (PreprocessStep.preprocessedoutputdir a, "DATA_INFO");
    (PreprocessStep.preprocessedoutputdir a, "ORDINAL_COL_TRANSFORMER");
    (PreprocessStep.preprocessedoutputdir a, "OHE_COL_TRANSFORMER_MV");
    (PreprocessStep.preprocessedoutputdir a, "OHE_COL_TRANSFORMER_SV") ].

Definition train_plan (a : TrainStep.args) : list (option string * string) :=
  [ (TrainStep.preprocessedoutputdir a, "PROCESSED_DATA");
    (TrainStep.preprocessedoutputdir a, "PROCESSED_OHE_DATA");
    (TrainStep.preprocessedoutputdir a, "TRAIN_SET");
    (TrainStep.preprocessedoutputdir a, "TEST_SET");
    (TrainStep.preprocessedoutputdir a, "DATA_INFO");
    (TrainStep.trainoutputdir a, "SCALER_COL_TRANSFORMER");
    (TrainStep.trainoutputdir a, "MODEL_TO_LOAD") ].

(** The keys both scripts relocate under [--preprocessedoutputdir]. *)
Definition shared_keys : list string :=
  [ "PROCESSED_DATA"; "PROCESSED_OHE_DATA"; "TRAIN_SET"; "TEST_SET"; "DATA_INFO" ].

(** Either script, with its command line. *)
Inductive stage : Type :=
| Preprocessing (a : PreprocessStep.args)
| Training (a : TrainStep.args).

Definition stage_rewrite (st : stage) (cfg : yaml) : result yaml :=
  match st with
  | Preprocessing a => PreprocessStep.rewrite_paths a cfg
  | Training a => TrainStep.rewrite_paths a cfg
  end.

(** The keys a stage relocates, each with the directory it goes under. *)
Definition relocated_keys (st : stage) : list (option string * string) :=
  match st with
  | Preprocessing a => preprocess_plan a
  | Training a => train_plan a
  end.

(** The [--preprocessedoutputdir] argument of a stage. *)
Definition stage_preprocessedoutputdir (st : stage) : option string :=
  match st with
  | Preprocessing a => PreprocessStep.preprocessedoutputdir a
  | Training a => TrainStep.preprocessedoutputdir a
  end.

(** [new] is [old] moved under [d]: the directory is [d], the file
    name is the one [old] had. *)
Definition relocated (d : string) (old new : option yaml) : Prop :=
  ∃ s, old = Some (YStr s) ∧ new = Some (YStr ((d +:+ "/") +:+ last_segment s)).

(** The file name of an entry, when the entry is a string. *)
Definition file_name (v : option yaml) : option string :=
  match v with
  | Some (YStr s) => Some (last_segment s)
  | _ => None
  end.

(** An entry of the configuration a rewrite returns. *)
Definition result_entry (r : result yaml) (key : string) : option yaml :=
  match r with
  | Ok cfg => paths_entry cfg key
  | Raise _ => None
  end.

(** A configuration and command lines to run the statements on. *)
Definition sample_cfg : yaml :=
  YMap (<["TRAIN" := YMap (list_to_map [("PATIENCE", YInt 15); ("BATCH_SIZE", YInt 1024)])]>
       (<["PATHS" := YMap (list_to_map
          [ ("RAW_DATA", YStr "data/raw/HIFIS_Clients.csv");
            ("RAW_SPDAT_DATA", YStr "data/raw/SPDATS.json");
            ("PROCESSED_DATA", YStr "./data/preprocessed/processed.parquet");
            ("PROCESSED_OHE_DATA", YStr "data/processed/HIFIS_Processed_OHE.csv");
            ("TRAIN_SET", YStr "data/processed/Train_Set.csv");
            ("TEST_SET", YStr "data/processed/Test_Set.csv");
            ("GROUND_TRUTH", YStr "data/processed/GroundTruth.csv");
            ("DATA_INFO", YStr "data/interpretability/data_info.yml");
            ("ORDINAL_COL_TRANSFORMER", YStr "data/transformers/ordinal.bin");
            ("OHE_COL_TRANSFORMER_MV", YStr "data/transformers/ohe_mv.bin");
            ("OHE_COL_TRANSFORMER_SV", YStr "ohe_sv.bin");
            ("SCALER_COL_TRANSFORMER", YStr "data/transformers/scaler.bin");
            ("MODEL_TO_LOAD", YStr "results/models/model.h5");
            ("MODEL_WEIGHTS", YStr "results/models/");
            ("LOGS", YStr "results/logs/training") ])]> ∅)).

Definition sample_preprocess_args : PreprocessStep.args :=
  {| PreprocessStep.rawdatadir := Some "/mnt/raw";
     PreprocessStep.preprocessedoutputdir := Some "/mnt/output" |}.

Definition sample_train_args : TrainStep.args :=
  {| TrainStep.preprocessedoutputdir := Some "/mnt/output";
     TrainStep.traininglogsdir := Some "/mnt/logs";
     TrainStep.trainoutputdir := Some "/mnt/train" |}.

(** The sample configuration after each stage's rewrite. *)
Definition sample_cfg_preprocessed : yaml :=
  Eval vm_compute in
    match PreprocessStep.rewrite_paths sample_preprocess_args sample_cfg with
    | Ok cfg => cfg
    | Raise _ => YNull
    end.

Definition sample_cfg_trained : yaml :=
  Eval vm_compute in
    match TrainStep.rewrite_paths sample_train_args sample_cfg with
    | Ok cfg => cfg
    | Raise _ => YNull
    end.

(** The calls one epoch end makes on the tracking run when the model
    counter is [counter]. *)
Definition forwarded {object : Type} (counter : Z) (log : list (string * object))
  : list (TrainStep.call object) :=
  map (λ item,
         TrainStep.run_log ((("model" +:+ pretty counter) +:+ "_") +:+ item.1) item.2)
      log.

(** How many of the reported epoch ends carry the epoch index 1. *)
Definition new_models {object : Type} (epochs : list (Z * list (string * object))) : Z :=
  Z.of_nat (length (filter (λ e, e.1 = 1) epochs)).

(** The epoch ends of one model that trains for [length logs] epochs:
    Keras numbers them from 0. *)
Definition model_epochs {object : Type} (logs : list (list (string * object)))
  : list (Z * list (string * object)) :=
  imap (λ i log, (Z.of_nat i, log)) logs.

(** The same calls with the prefix spelled out. *)
Definition forwarded_as {object : Type} (prefix : string) (log : list (string * object))
  : list (TrainStep.call object) :=
  map (λ item, TrainStep.run_log (prefix +:+ item.1) item.2) log.

(** A filesystem in which the output path is taken by a regular file,
    and one that holds the output directory and its parent. *)
Definition fs_with_file : gmap (list string) OS.node :=
  <[ ["mnt"] := OS.Dir ]> (<[ ["mnt"; "output"] := OS.File ]> ∅).

Definition fs_with_output : gmap (list string) OS.node :=
  <[ ["mnt"] := OS.Dir ]> (<[ ["mnt"; "output"] := OS.Dir ]> ∅).

Definition is_save_model {object : Type} (c : TrainStep.call object) : bool :=
  match c with
  | TrainStep.save_model _ _ => true
  | _ => false
  end.

(** The world after further calls. *)
Definition logged {object : Type} (w : TrainStep.world object)
    (cs : list (TrainStep.call object)) : TrainStep.world object :=
  {| TrainStep.fs := TrainStep.fs w; TrainStep.calls := TrainStep.calls w ++ cs |}.

(** The first statement of [on_epoch_end]. *)
Definition bump (self : TrainStep.LogRunMetrics) (epoch : Z) : TrainStep.LogRunMetrics :=
  if bool_decide (epoch = 1)
  then {| TrainStep.model_counter := TrainStep.model_counter self + 1 |}
  else self.

(** A computation that makes no call on [save_model], however it ends. *)
Definition quiet {object A : Type} (m : st (TrainStep.world object) A) : Prop :=
  ∀ w r w', m w = (r, w') →
    ∃ cs, TrainStep.calls w' = TrainStep.calls w ++ cs ∧
          Forall (λ c, is_save_model c = false) cs.

(** What a computation returns, when it returns. *)
Definition returns {object A : Type} (m : st (TrainStep.world object) A) (P : A → Prop)
  : Prop :=
  ∀ w a w', m w = (Ok a, w') → P a.

(** The sample configuration with [MODEL_WEIGHTS: null]. *)
Definition sample_cfg_null : yaml :=
  match assign_entry "MODEL_WEIGHTS" YNull sample_cfg with
  | Ok cfg => cfg
  | Raise _ => YNull
  end.

(** Collaborators to run the training script with; the values they
    hand round are named by strings. *)
Definition sample_resolve (s : string) : list string :=
  filter (λ c, c ≠ EmptyString) (split "/" s).

Definition sample_load_dataset (cfg : yaml) : result (gmap string string) :=
  Ok (list_to_map [("X_test", "x"); ("Y_test", "y")]).

Definition sample_multi_train (cfg : yaml) (data : gmap string string)
    (patience base_log_dir : yaml)
  : list (Z * list (string * string)) * result (string * list (string * string) * string) :=
  ([ (0, [("loss", "0.9"); ("val_loss", "1.0")]);
     (1, [("loss", "0.7"); ("val_loss", "0.8")]) ],
   Ok ("model", [("loss", "0.75"); ("recall", "0.6")], "20200101-000000")).

Definition sample_predict (model x : string) (batch_size : yaml) : result string :=
  Ok "predictions".

Definition sample_plot_roc (title y p : string) : result string := Ok "roc".

Definition sample_plot_confusion_matrix (y p : string) : result string := Ok "cm".

Definition sample_world : TrainStep.world string :=
  {| TrainStep.fs := ∅; TrainStep.calls := [] |}.

(** The world once the sample run has reported on the test set. *)
Definition sample_world_reported : TrainStep.world string :=
  Eval vm_compute in
    (TrainStep.train_and_report string sample_resolve sample_load_dataset
       sample_multi_train sample_predict sample_plot_roc sample_plot_confusion_matrix
       sample_train_args sample_cfg sample_world).2.

(** The configuration with one [PATHS] key removed. *)
Definition without_entry (key : string) (cfg : yaml) : yaml :=
  match cfg with
  | YMap m =>
      match m !! "PATHS" with
      | Some (YMap p) => YMap (<["PATHS" := YMap (delete key p)]> m)
      | _ => cfg
      end
  | _ => cfg
  end.

(** The configuration with one [PATHS] key set. *)
Definition with_entry (key : string) (v : yaml) (cfg : yaml) : yaml :=
  match assign_entry key v cfg with
  | Ok cfg' => cfg'
  | Raise _ => cfg
  end.





(** The sample configuration with the test set named like the train
    set, before and after the training stage's rewrite. *)
Definition sample_cfg_clash : yaml :=
  with_entry "TEST_SET" (YStr "data/holdout/Train_Set.csv") sample_cfg.

Definition sample_cfg_clash_trained : yaml :=
  Eval vm_compute in
    match TrainStep.rewrite_paths sample_train_args sample_cfg_clash with
    | Ok cfg => cfg
    | Raise _ => YNull
    end.

(** A stand-in for [preprocess] to run the preprocessing script with. *)
Definition sample_preprocess (config n_weeks : yaml)
    (include_gt calculate_gt classify_cat_feats load_ct : bool) : result string :=
  Ok "preprocessed".

(** The sample configuration without [MODEL_WEIGHTS], before and after
    the training stage's rewrite. *)
Definition sample_cfg_no_weights : yaml := without_entry "MODEL_WEIGHTS" sample_cfg.

Definition sample_cfg_no_weights_trained : yaml :=
  Eval vm_compute in
    match TrainStep.rewrite_paths sample_train_args sample_cfg_no_weights with
    | Ok cfg => cfg
    | Raise _ => YNull
    end.

(** The calls the sample run makes on the tracking run. *)
Definition sample_calls : list (TrainStep.call string) :=
  [ TrainStep.run_log "model0_loss" "0.9";
    TrainStep.run_log "model0_val_loss" "1.0";
    TrainStep.run_log "model1_loss" "0.7";
    TrainStep.run_log "model1_val_loss" "0.8";
    TrainStep.run_log "TensorBoard logs folder" "20200101-000000";
    TrainStep.run_log "test_loss" "0.75";
    TrainStep.run_log "test_recall" "0.6";
    TrainStep.run_log_image "ROC" "roc";
    TrainStep.run_log_image "Confusion matrix" "cm" ].


(** * Strings *)

Lemma append_nil_l (a : string) : EmptyString +:+ a = a.
Proof. reflexivity. Qed.

Lemma append_cons c (a b : string) : String c a +:+ b = String c (a +:+ b).
Proof. reflexivity. Qed.

Lemma append_assoc (a b c : string) : (a +:+ b) +:+ c = a +:+ (b +:+ c).
Proof.
  induction a as [|x a IH]; [done |].
  by rewrite !append_cons, IH.
Qed.

Lemma split_not_nil sep s : split sep s ≠ [].
Proof.
  destruct s as [|c s]; simpl; [done |].
  destruct (Ascii.eqb c sep); [done |].
  by destruct (split sep s).
Qed.

Lemma split_app_sep sep a b :
  split sep (a +:+ String sep b) = split sep a ++ split sep b.
Proof.
  induction a as [|c a IH].
  - rewrite append_nil_l. simpl. by rewrite Ascii.eqb_refl.
  - rewrite append_cons. simpl.
    destruct (Ascii.eqb c sep); [by rewrite IH |].
    rewrite IH. pose proof (split_not_nil sep a) as Hne.
    by destruct (split sep a).
Qed.

Lemma split_no_sep sep s : has_char sep s = false → split sep s = [s].
Proof.
  induction s as [|c s IH]; simpl; [done |].
  intros [Hc Hs]%orb_false_iff. rewrite Hc, IH; done.
Qed.

Lemma split_segments_no_sep sep s :
  Forall (λ seg, has_char sep seg = false) (split sep s).
Proof.
  induction s as [|c s IH]; simpl.
  - by constructor.
  - destruct (Ascii.eqb c sep) eqn:Hc; [by constructor |].
    pose proof (split_not_nil sep s) as Hne.
    destruct (split sep s) as [|seg rest]; [done |].
    inversion IH; subst. constructor; [|done]. simpl. by rewrite Hc.
Qed.

Lemma index_last_split s : index_last (split "/" s) = Ok (last_segment s).
Proof.
  unfold index_last, last_segment.
  pose proof (split_not_nil "/" s) as Hne.
  destruct (last (split "/" s)) eqn:Hl; [done |].
  by apply last_None in Hl.
Qed.

Lemma last_segment_no_sep s : has_char "/" s = false → last_segment s = s.
Proof. intros H. unfold last_segment. by rewrite (split_no_sep _ _ H). Qed.

Lemma last_segment_has_no_sep s : has_char "/" (last_segment s) = false.
Proof.
  unfold last_segment.
  pose proof (split_segments_no_sep "/" s) as Hall.
  pose proof (split_not_nil "/" s) as Hne.
  destruct (last (split "/" s)) as [x|] eqn:Hl; [|by apply last_None in Hl].
  simpl. apply last_Some in Hl as [l' Hl]. rewrite Hl in Hall.
  by apply Forall_app in Hall as [_ [? _]%Forall_cons].
Qed.

Lemma last_segment_under d name :
  has_char "/" name = false → last_segment ((d +:+ "/") +:+ name) = name.
Proof.
  intros H. unfold last_segment.
  rewrite append_assoc, append_cons, append_nil_l.
  rewrite split_app_sep, (split_no_sep _ _ H), last_snoc. done.
Qed.

(** * One relocation statement *)

Ltac unfold_result :=
  unfold mbind, result_bind, mret, result_ret in *; simpl in *.

Lemma rewrite_entry_eq d key m p s :
  m !! "PATHS" = Some (YMap p) →
  p !! key = Some (YStr s) →
  rewrite_entry (Some d) key (YMap m)
  = Ok (YMap (<["PATHS" := YMap (<[key := YStr ((d +:+ "/") +:+ last_segment s)]> p)]> m)).
Proof.
  intros Hm Hp. unfold rewrite_entry. unfold_result.
  rewrite Hm. simpl. rewrite Hp. simpl.
  by rewrite index_last_split.
Qed.

Lemma rewrite_entry_inv dir key cfg cfg' :
  rewrite_entry dir key cfg = Ok cfg' →
  ∃ d m p s,
    dir = Some d ∧ cfg = YMap m ∧ m !! "PATHS" = Some (YMap p) ∧
    p !! key = Some (YStr s) ∧
    cfg' = YMap (<["PATHS" := YMap (<[key := YStr ((d +:+ "/") +:+ last_segment s)]> p)]> m).
Proof.
  unfold rewrite_entry. unfold_result.
  destruct dir as [d|]; simpl; [|done].
  destruct cfg as [| | | | |m]; simpl; try done.
  destruct (m !! "PATHS") as [[| | | | |p]|] eqn:Hm; simpl; try done.
  destruct (p !! key) as [[| | |s| |]|] eqn:Hp; simpl; try done.
  rewrite index_last_split. intros [= <-]. by exists d, m, p, s.
Qed.

Lemma assign_entry_eq key v m p :
  m !! "PATHS" = Some (YMap p) →
  assign_entry key v (YMap m) = Ok (YMap (<["PATHS" := YMap (<[key := v]> p)]> m)).
Proof. intros Hm. unfold assign_entry. unfold_result. by rewrite Hm. Qed.

Lemma assign_entry_inv key v cfg cfg' :
  assign_entry key v cfg = Ok cfg' →
  ∃ m p, cfg = YMap m ∧ m !! "PATHS" = Some (YMap p) ∧
         cfg' = YMap (<["PATHS" := YMap (<[key := v]> p)]> m).
Proof.
  unfold assign_entry. unfold_result.
  destruct cfg as [| | | | |m]; simpl; try done.
  destruct (m !! "PATHS") as [[| | | | |p]|] eqn:Hm; simpl; try done.
  intros [= <-]. by exists m, p.
Qed.

(** * A run of relocation statements over distinct keys *)

Lemma plan_dir_unique (plan : list (option string * string)) d1 d2 key :
  NoDup plan.*2 → (d1, key) ∈ plan → (d2, key) ∈ plan → d1 = d2.
Proof.
  induction plan as [|[d k] plan IH]; simpl; [by intros _ ?%elem_of_nil |].
  intros [Hk Hnd]%NoDup_cons [H1|H1]%elem_of_cons [H2|H2]%elem_of_cons.
  - congruence.
  - injection H1 as -> ->. exfalso. apply Hk.
    apply list_elem_of_fmap. by exists (d2, k).
  - injection H2 as -> ->. exfalso. apply Hk.
    apply list_elem_of_fmap. by exists (d1, k).
  - by apply IH.
Qed.

Lemma rewrite_all_inv plan m p cfg' :
  NoDup plan.*2 →
  m !! "PATHS" = Some (YMap p) →
  rewrite_all plan (YMap m) = Ok cfg' →
  ∃ p',
    cfg' = YMap (<["PATHS" := YMap p']> m) ∧
    (∀ key, key ∉ plan.*2 → p' !! key = p !! key) ∧
    (∀ dir key, (dir, key) ∈ plan →
       ∃ d s, dir = Some d ∧ p !! key = Some (YStr s) ∧
              p' !! key = Some (YStr ((d +:+ "/") +:+ last_segment s))).
Proof.
  revert m p. induction plan as [|[dir0 key0] plan IH]; intros m p Hnd Hm; simpl.
  - intros [= <-]. exists p. split_and!.
    + by rewrite insert_id.
    + done.
    + by intros ?? ?%elem_of_nil.
  - apply NoDup_cons in Hnd as [Hfresh Hnd].
    unfold mbind, result_bind at 1.
    destruct (rewrite_entry dir0 key0 (YMap m)) as [cfg1|] eqn:H1; [|done].
    apply rewrite_entry_inv in H1 as (d0 & m0 & p0 & s0 & -> & [= <-] & Hm0 & Hp0 & ->).
    rewrite Hm in Hm0. injection Hm0 as <-.
    intros Hrest.
    eapply IH in Hrest as (p' & -> & Hframe & Hplan);
      [|done|by rewrite lookup_insert_eq].
    exists p'. split_and!.
    + by rewrite insert_insert_eq.
    + intros key [Hne Hnot]%not_elem_of_cons.
      rewrite Hframe by done. by rewrite lookup_insert_ne.
    + intros dir key [[= -> ->]|Hin]%elem_of_cons.
      * exists d0, s0. split_and!; [done..|].
        rewrite Hframe by done. by rewrite lookup_insert_eq.
      * destruct (Hplan _ _ Hin) as (d & s & -> & Hs & Hp').
        assert (key ≠ key0) as Hne.
        { intros ->. apply Hfresh. apply list_elem_of_fmap. by exists (Some d, key0). }
        rewrite lookup_insert_ne in Hs by done. by exists d, s.
Qed.

Lemma rewrite_all_head plan cfg cfg' :
  plan ≠ [] → rewrite_all plan cfg = Ok cfg' →
  ∃ m p, cfg = YMap m ∧ m !! "PATHS" = Some (YMap p).
Proof.
  destruct plan as [|[dir key] plan]; [done |]. intros _. simpl.
  unfold mbind, result_bind at 1.
  destruct (rewrite_entry dir key cfg) as [cfg1|] eqn:H1; [|done].
  apply rewrite_entry_inv in H1 as (d & m & p & s & _ & Hcfg & Hm & _).
  by exists m, p.
Qed.

Lemma rewrite_all_succeeds plan m p :
  m !! "PATHS" = Some (YMap p) →
  (∀ dir key, (dir, key) ∈ plan → is_Some dir ∧ ∃ s, p !! key = Some (YStr s)) →
  ∃ cfg', rewrite_all plan (YMap m) = Ok cfg'.
Proof.
  revert m p. induction plan as [|[dir0 key0] plan IH]; intros m p Hm Hall; simpl.
  - by eexists.
  - destruct (Hall dir0 key0) as [[d0 ->] [s0 Hs0]]; [by left |].
    unfold mbind, result_bind at 1.
    rewrite (rewrite_entry_eq _ _ _ _ _ Hm Hs0).
    eapply IH; [by rewrite lookup_insert_eq |].
    intros dir key Hin. destruct (Hall dir key) as [Hd [s Hs]]; [by right |].
    split; [done |].
    destruct (decide (key = key0)) as [->|Hne].
    + rewrite lookup_insert_eq. eauto.
    + rewrite lookup_insert_ne by done. eauto.
Qed.

(** Entries that already lie under their directory are left as they are. *)
Lemma rewrite_all_fixed plan m p :
  NoDup plan.*2 →
  m !! "PATHS" = Some (YMap p) →
  (∀ dir key, (dir, key) ∈ plan →
     ∃ d name, dir = Some d ∧ has_char "/" name = false ∧
               p !! key = Some (YStr ((d +:+ "/") +:+ name))) →
  rewrite_all plan (YMap m) = Ok (YMap m).
Proof.
  intros Hnd Hm Hall.
  destruct (rewrite_all_succeeds plan m p Hm) as [cfg' Hrun].
  { intros dir key Hin. destruct (Hall _ _ Hin) as (d & name & -> & _ & Hp). eauto. }
  rewrite Hrun.
  destruct (rewrite_all_inv _ _ _ _ Hnd Hm Hrun) as (p' & -> & Hframe & Hplan).
  assert (p' = p) as ->; [|by rewrite insert_id].
  apply map_eq. intros key.
  destruct (decide (key ∈ plan.*2)) as [Hin|Hout]; [|by apply Hframe].
  apply list_elem_of_fmap in Hin as ([dir key'] & Hkey & Hin). simpl in Hkey. subst key'.
  destruct (Hplan _ _ Hin) as (d & s & -> & Hs & ->).
  destruct (Hall _ _ Hin) as (d' & name & [= <-] & Hname & Hp).
  rewrite Hp in Hs. injection Hs as <-.
  by rewrite last_segment_under.
Qed.

(** * The two scripts as runs of relocation statements *)

Lemma preprocess_rewrite_paths_plan a cfg :
  PreprocessStep.rewrite_paths a cfg = rewrite_all (preprocess_plan a) cfg.
Proof. reflexivity. Qed.

Lemma train_rewrite_paths_plan a cfg :
  TrainStep.rewrite_paths a cfg
  = (cfg ← rewrite_all (train_plan a) cfg;
     assign_entry "LOGS" (of_arg (TrainStep.traininglogsdir a)) cfg).
Proof.
  unfold TrainStep.rewrite_paths, train_plan, rewrite_all.
  unfold mbind, result_bind, mret, result_ret.
  repeat match goal with
         | |- context [rewrite_entry ?d ?k ?c] =>
             destruct (rewrite_entry d k c); [|reflexivity]
         end.
  reflexivity.
Qed.

Lemma preprocess_plan_NoDup a : NoDup (preprocess_plan a).*2.
Proof. apply (bool_decide_unpack _). by vm_compute. Qed.

Lemma train_plan_NoDup a : NoDup (train_plan a).*2.
Proof. apply (bool_decide_unpack _). by vm_compute. Qed.

Lemma train_plan_no_LOGS a : "LOGS" ∉ (train_plan a).*2.
Proof. apply (bool_decide_unpack _). by vm_compute. Qed.

Lemma relocated_file_name d old new :
  relocated d old new → file_name new = file_name old.
Proof.
  intros (s & -> & ->). simpl.
  by rewrite last_segment_under by apply last_segment_has_no_sep.
Qed.

(** What a successful rewrite of either stage did to the configuration. *)
Lemma preprocess_rewrite_inv a cfg cfg' :
  PreprocessStep.rewrite_paths a cfg = Ok cfg' →
  ∃ m p p',
    cfg = YMap m ∧ m !! "PATHS" = Some (YMap p) ∧
    cfg' = YMap (<["PATHS" := YMap p']> m) ∧
    (∀ key, key ∉ (preprocess_plan a).*2 → p' !! key = p !! key) ∧
    (∀ dir key, (dir, key) ∈ preprocess_plan a →
       ∃ d s, dir = Some d ∧ p !! key = Some (YStr s) ∧
              p' !! key = Some (YStr ((d +:+ "/") +:+ last_segment s))).
Proof.
  rewrite preprocess_rewrite_paths_plan. intros Hrun.
  destruct (rewrite_all_head (preprocess_plan a) _ _ ltac:(done) Hrun)
    as (m & p & -> & Hm).
  destruct (rewrite_all_inv _ _ _ _ (preprocess_plan_NoDup a) Hm Hrun)
    as (p' & -> & Hframe & Hplan).
  by exists m, p, p'.
Qed.

Lemma train_rewrite_inv a cfg cfg' :
  TrainStep.rewrite_paths a cfg = Ok cfg' →
  ∃ m p p',
    cfg = YMap m ∧ m !! "PATHS" = Some (YMap p) ∧
    cfg' = YMap (<["PATHS" := YMap p']> m) ∧
    p' !! "LOGS" = Some (of_arg (TrainStep.traininglogsdir a)) ∧
    (∀ key, key ∉ (train_plan a).*2 → key ≠ "LOGS" → p' !! key = p !! key) ∧
    (∀ dir key, (dir, key) ∈ train_plan a →
       ∃ d s, dir = Some d ∧ p !! key = Some (YStr s) ∧
              p' !! key = Some (YStr ((d +:+ "/") +:+ last_segment s))).
Proof.
  rewrite train_rewrite_paths_plan. unfold mbind, result_bind at 1.
  destruct (rewrite_all (train_plan a) cfg) as [cfg1|] eqn:Hrun; [|done].
  destruct (rewrite_all_head (train_plan a) _ _ ltac:(done) Hrun)
    as (m & p & -> & Hm).
  destruct (rewrite_all_inv _ _ _ _ (train_plan_NoDup a) Hm Hrun)
    as (p1 & -> & Hframe & Hplan).
  rewrite (assign_entry_eq _ _ _ p1) by by rewrite lookup_insert_eq.
  intros [= <-]. rewrite insert_insert_eq.
  eexists m, p, _. split_and!; [done..| | |].
  - by rewrite lookup_insert_eq.
  - intros key Hout Hne. rewrite lookup_insert_ne by done. by apply Hframe.
  - intros dir key Hin. destruct (Hplan _ _ Hin) as (d & s & -> & Hs & Hp1).
    exists d, s. split_and!; [done..|].
    rewrite lookup_insert_ne; [done |].
    intros <-. apply (train_plan_no_LOGS a).
    apply list_elem_of_fmap. by exists (Some d, "LOGS").
Qed.

Lemma paths_entry_insert m p key :
  paths_entry (YMap (<["PATHS" := YMap p]> m)) key = p !! key.
Proof. unfold paths_entry. by rewrite lookup_insert_eq. Qed.

Lemma paths_entry_map m p key :
  m !! "PATHS" = Some (YMap p) → paths_entry (YMap m) key = p !! key.
Proof. intros Hm. unfold paths_entry. by rewrite Hm. Qed.

Lemma stage_rewrite_relocates st cfg cfg' dir key :
  stage_rewrite st cfg = Ok cfg' →
  (dir, key) ∈ relocated_keys st →
  ∃ d, dir = Some d ∧ relocated d (paths_entry cfg key) (paths_entry cfg' key).
Proof.
  destruct st as [a|a]; simpl; intros Hrun Hin.
  - apply preprocess_rewrite_inv in Hrun
      as (m & p & p' & -> & Hm & -> & _ & Hplan).
    destruct (Hplan _ _ Hin) as (d & s & -> & Hs & Hp').
    exists d. split; [done |]. exists s.
    by rewrite paths_entry_insert, (paths_entry_map _ _ _ Hm).
  - apply train_rewrite_inv in Hrun
      as (m & p & p' & -> & Hm & -> & _ & _ & Hplan).
    destruct (Hplan _ _ Hin) as (d & s & -> & Hs & Hp').
    exists d. split; [done |]. exists s.
    by rewrite paths_entry_insert, (paths_entry_map _ _ _ Hm).
Qed.

Lemma stage_rewrite_frame st cfg cfg' key :
  stage_rewrite st cfg = Ok cfg' →
  key ∉ (relocated_keys st).*2 → key ≠ "LOGS" →
  paths_entry cfg' key = paths_entry cfg key.
Proof.
  destruct st as [a|a]; simpl; intros Hrun Hout Hne.
  - apply preprocess_rewrite_inv in Hrun
      as (m & p & p' & -> & Hm & -> & Hframe & _).
    rewrite paths_entry_insert, (paths_entry_map _ _ _ Hm). by apply Hframe.
  - apply train_rewrite_inv in Hrun
      as (m & p & p' & -> & Hm & -> & _ & Hframe & _).
    rewrite paths_entry_insert, (paths_entry_map _ _ _ Hm). by apply Hframe.
Qed.

Lemma sample_cfg_preprocessed_eq :
  stage_rewrite (Preprocessing sample_preprocess_args) sample_cfg
  = Ok sample_cfg_preprocessed.
Proof. by vm_compute. Qed.

Lemma sample_cfg_trained_eq :
  stage_rewrite (Training sample_train_args) sample_cfg = Ok sample_cfg_trained.
Proof. by vm_compute. Qed.

(** * Relocation keeps the file name (C1) *)

(** C1, as stated, fails for [PATHS.LOGS] in the training stage: the
    loaded value ["results/logs/training"] becomes the directory
    argument ["/mnt/logs"] itself, not ["/mnt/logs/training"], and its
    last segment changes from ["training"] to ["logs"]. *)
Lemma LOGS_is_not_relocated :
  paths_entry sample_cfg "LOGS" = Some (YStr "results/logs/training") ∧
  result_entry (TrainStep.rewrite_paths sample_train_args sample_cfg) "LOGS"
  = Some (YStr "/mnt/logs") ∧
  ¬ relocated "/mnt/logs"
      (paths_entry sample_cfg "LOGS")
      (result_entry (TrainStep.rewrite_paths sample_train_args sample_cfg) "LOGS") ∧
  file_name (result_entry (TrainStep.rewrite_paths sample_train_args sample_cfg) "LOGS")
  ≠ file_name (paths_entry sample_cfg "LOGS").
Proof.
  split_and!.
  - by vm_compute.
  - by vm_compute.
  - intros (s & Hold & Hnew). vm_compute in Hold. injection Hold as <-.
    vm_compute in Hnew. discriminate Hnew.
  - vm_compute. discriminate.
Qed.

(** C1 (amended): after a successful rewrite of either stage, every
    key the stage relocates holds the target directory, ['/'] and the
    last ['/']-separated segment of its loaded value, so its file name
    is the loaded one; every key that is neither relocated nor
    [PATHS.LOGS] keeps its loaded value; [PATHS.LOGS] in the training
    stage holds the [--traininglogsdir] argument as it was given. *)
Theorem rewritten_entries_keep_file_name st cfg cfg' :
  stage_rewrite st cfg = Ok cfg' →
  (∀ dir key, (dir, key) ∈ relocated_keys st →
     ∃ d, dir = Some d ∧
          relocated d (paths_entry cfg key) (paths_entry cfg' key) ∧
          file_name (paths_entry cfg' key) = file_name (paths_entry cfg key)) ∧
  (∀ key, key ∉ (relocated_keys st).*2 → key ≠ "LOGS" →
     paths_entry cfg' key = paths_entry cfg key) ∧
  (∀ a, st = Training a →
     paths_entry cfg' "LOGS" = Some (of_arg (TrainStep.traininglogsdir a))).
Proof.
  intros Hrun. split_and!.
  - intros dir key Hin.
    destruct (stage_rewrite_relocates _ _ _ _ _ Hrun Hin) as (d & -> & Hrel).
    exists d. split_and!; [done..|]. by eapply relocated_file_name.
  - intros key Hout Hne. by eapply stage_rewrite_frame.
  - intros a ->. simpl in Hrun.
    apply train_rewrite_inv in Hrun
      as (m & p & p' & -> & Hm & -> & Hlogs & _ & _).
    by rewrite paths_entry_insert.
Qed.

Lemma rewritten_entries_keep_file_name_witness :
  stage_rewrite (Training sample_train_args) sample_cfg = Ok sample_cfg_trained ∧
  relocated "/mnt/train"
    (paths_entry sample_cfg "MODEL_TO_LOAD")
    (paths_entry sample_cfg_trained "MODEL_TO_LOAD") ∧
  paths_entry sample_cfg_trained "LOGS" = Some (YStr "/mnt/logs").
Proof.
  split; [exact sample_cfg_trained_eq |].
  destruct (rewritten_entries_keep_file_name
              (Training sample_train_args) sample_cfg sample_cfg_trained
              sample_cfg_trained_eq) as (Hrel & _ & Hlogs).
  split.
  - destruct (Hrel (Some "/mnt/train") "MODEL_TO_LOAD") as (d & Hd & Hmove & _).
    + vm_compute. repeat first [apply list_elem_of_here | apply list_elem_of_further].
    + injection Hd as <-. exact Hmove.
  - exact (Hlogs sample_train_args eq_refl).
Defined.

(** * The hand-off between the stages (C2) *)

Lemma shared_keys_preprocess pa d key :
  PreprocessStep.preprocessedoutputdir pa = Some d →
  key ∈ shared_keys → (Some d, key) ∈ preprocess_plan pa.
Proof.
  intros Hd Hkey. unfold preprocess_plan. rewrite Hd.
  unfold shared_keys in Hkey. rewrite !elem_of_cons in Hkey.
  destruct Hkey as [->|[->|[->|[->|[->|[]%elem_of_nil]]]]];
    repeat first [apply list_elem_of_here | apply list_elem_of_further].
Qed.

Lemma shared_keys_train ta d key :
  TrainStep.preprocessedoutputdir ta = Some d →
  key ∈ shared_keys → (Some d, key) ∈ train_plan ta.
Proof.
  intros Hd Hkey. unfold train_plan. rewrite Hd.
  unfold shared_keys in Hkey. rewrite !elem_of_cons in Hkey.
  destruct Hkey as [->|[->|[->|[->|[->|[]%elem_of_nil]]]]];
    repeat first [apply list_elem_of_here | apply list_elem_of_further].
Qed.

(** C2: started from the same configuration with the same
    [--preprocessedoutputdir], the two stages leave the same value
    under each of [PROCESSED_DATA], [PROCESSED_OHE_DATA], [TRAIN_SET],
    [TEST_SET] and [DATA_INFO]: the loaded value moved under that
    directory. *)
Theorem stages_agree_on_shared_keys pa ta cfg cfg_pre cfg_train d key :
  PreprocessStep.preprocessedoutputdir pa = Some d →
  TrainStep.preprocessedoutputdir ta = Some d →
  PreprocessStep.rewrite_paths pa cfg = Ok cfg_pre →
  TrainStep.rewrite_paths ta cfg = Ok cfg_train →
  key ∈ shared_keys →
  paths_entry cfg_pre key = paths_entry cfg_train key ∧
  relocated d (paths_entry cfg key) (paths_entry cfg_pre key).
Proof.
  intros Hpd Htd Hpre Htrain Hkey.
  destruct (stage_rewrite_relocates (Preprocessing pa) _ _ _ _ Hpre
              (shared_keys_preprocess _ _ _ Hpd Hkey)) as (d1 & [= <-] & Hrel1).
  destruct (stage_rewrite_relocates (Training ta) _ _ _ _ Htrain
              (shared_keys_train _ _ _ Htd Hkey)) as (d2 & [= <-] & Hrel2).
  split; [|done].
  destruct Hrel1 as (s1 & Hold1 & ->), Hrel2 as (s2 & Hold2 & ->).
  congruence.
Qed.

Lemma stages_agree_on_shared_keys_witness :
  paths_entry sample_cfg_preprocessed "TRAIN_SET"
  = paths_entry sample_cfg_trained "TRAIN_SET" ∧
  relocated "/mnt/output"
    (paths_entry sample_cfg "TRAIN_SET")
    (paths_entry sample_cfg_preprocessed "TRAIN_SET").
Proof.
  apply (stages_agree_on_shared_keys
           sample_preprocess_args sample_train_args sample_cfg
           sample_cfg_preprocessed sample_cfg_trained "/mnt/output" "TRAIN_SET").
  - reflexivity.
  - reflexivity.
  - vm_compute. reflexivity.
  - vm_compute. reflexivity.
  - unfold shared_keys. do 2 apply list_elem_of_further. apply list_elem_of_here.
Defined.

(** * Idempotence (C5) *)

(** C5: a configuration a stage's rewrite returned is returned
    unchanged when the same stage rewrites it again with the same
    command line. *)
Theorem rewrite_idempotent st cfg cfg' :
  stage_rewrite st cfg = Ok cfg' → stage_rewrite st cfg' = Ok cfg'.
Proof.
  destruct st as [a|a]; simpl; intros Hrun.
  - apply preprocess_rewrite_inv in Hrun
      as (m & p & p' & -> & Hm & -> & _ & Hplan).
    rewrite preprocess_rewrite_paths_plan.
    apply (rewrite_all_fixed _ _ p'); [apply preprocess_plan_NoDup | |].
    + by rewrite lookup_insert_eq.
    + intros dir key Hin. destruct (Hplan _ _ Hin) as (d & s & -> & _ & Hp').
      exists d, (last_segment s). split_and!; [done | | done].
      apply last_segment_has_no_sep.
  - apply train_rewrite_inv in Hrun
      as (m & p & p' & -> & Hm & -> & Hlogs & _ & Hplan).
    rewrite train_rewrite_paths_plan.
    rewrite (rewrite_all_fixed _ _ p'); [| apply train_plan_NoDup | |].
    + unfold mbind, result_bind.
      rewrite (assign_entry_eq _ _ _ p') by by rewrite lookup_insert_eq.
      by rewrite insert_insert_eq, (insert_id p').
    + by rewrite lookup_insert_eq.
    + intros dir key Hin. destruct (Hplan _ _ Hin) as (d & s & -> & _ & Hp').
      exists d, (last_segment s). split_and!; [done | | done].
      apply last_segment_has_no_sep.
Qed.

Lemma rewrite_idempotent_witness :
  stage_rewrite (Training sample_train_args) sample_cfg = Ok sample_cfg_trained ∧
  stage_rewrite (Training sample_train_args) sample_cfg_trained = Ok sample_cfg_trained.
Proof.
  split; [exact sample_cfg_trained_eq |].
  exact (rewrite_idempotent (Training sample_train_args) sample_cfg sample_cfg_trained
           sample_cfg_trained_eq).
Defined.

(** * Degenerate and concrete inputs (C7, C8) *)

Lemma paths_entry_Some_inv cfg key v :
  paths_entry cfg key = Some v →
  ∃ m p, cfg = YMap m ∧ m !! "PATHS" = Some (YMap p) ∧ p !! key = Some v.
Proof.
  unfold paths_entry. destruct cfg as [| | | | |m]; try done.
  destruct (m !! "PATHS") as [[| | | | |p]|] eqn:Hm; try done.
  intros Hp. by exists m, p.
Qed.

(** C7: the relocation statement, run on an entry whose loaded value
    holds no ['/'], does not raise and stores the target directory,
    ['/'] and the whole loaded value. *)
Theorem entry_without_separator d key cfg s :
  paths_entry cfg key = Some (YStr s) →
  has_char "/" s = false →
  ∃ cfg', rewrite_entry (Some d) key cfg = Ok cfg' ∧
          paths_entry cfg' key = Some (YStr ((d +:+ "/") +:+ s)).
Proof.
  intros (m & p & -> & Hm & Hp)%paths_entry_Some_inv Hsep.
  eexists. split; [by apply rewrite_entry_eq |].
  by rewrite paths_entry_insert, lookup_insert_eq, last_segment_no_sep.
Qed.

Lemma entry_without_separator_witness :
  paths_entry sample_cfg "OHE_COL_TRANSFORMER_SV" = Some (YStr "ohe_sv.bin") ∧
  has_char "/" "ohe_sv.bin" = false ∧
  ∃ cfg', rewrite_entry (Some "/mnt/output") "OHE_COL_TRANSFORMER_SV" sample_cfg = Ok cfg' ∧
          paths_entry cfg' "OHE_COL_TRANSFORMER_SV" = Some (YStr "/mnt/output/ohe_sv.bin").
Proof.
  split; [by vm_compute |]. split; [by vm_compute |].
  apply (entry_without_separator "/mnt/output" "OHE_COL_TRANSFORMER_SV" sample_cfg
           "ohe_sv.bin"); by vm_compute.
Defined.

Lemma preprocessed_dir_relocated_key st :
  (stage_preprocessedoutputdir st, "PROCESSED_DATA") ∈ relocated_keys st.
Proof.
  destruct st as [a|a]; simpl;
    repeat first [apply list_elem_of_here | apply list_elem_of_further].
Qed.

(** C8: with [PATHS.PROCESSED_DATA] loaded as
    ["./data/preprocessed/processed.parquet"] and the directory
    ["/mnt/output"], either stage's rewrite leaves
    ["/mnt/output/processed.parquet"] under [PROCESSED_DATA]. *)
Theorem processed_data_scenario st cfg cfg' :
  stage_preprocessedoutputdir st = Some "/mnt/output" →
  paths_entry cfg "PROCESSED_DATA" = Some (YStr "./data/preprocessed/processed.parquet") →
  stage_rewrite st cfg = Ok cfg' →
  paths_entry cfg' "PROCESSED_DATA" = Some (YStr "/mnt/output/processed.parquet").
Proof.
  intros Hdir Hold Hrun.
  destruct (stage_rewrite_relocates _ _ _ _ _ Hrun (preprocessed_dir_relocated_key st))
    as (d & Hd & s & Hs & ->).
  rewrite Hdir in Hd. injection Hd as <-.
  rewrite Hold in Hs. injection Hs as <-.
  by vm_compute.
Qed.

Lemma processed_data_scenario_witness :
  paths_entry sample_cfg_preprocessed "PROCESSED_DATA"
  = Some (YStr "/mnt/output/processed.parquet") ∧
  paths_entry sample_cfg_trained "PROCESSED_DATA"
  = Some (YStr "/mnt/output/processed.parquet").
Proof.
  split.
  - apply (processed_data_scenario (Preprocessing sample_preprocess_args) sample_cfg).
    + reflexivity.
    + vm_compute. reflexivity.
    + vm_compute. reflexivity.
  - apply (processed_data_scenario (Training sample_train_args) sample_cfg).
    + reflexivity.
    + vm_compute. reflexivity.
    + vm_compute. reflexivity.
Defined.

(** * The metrics-logging callback (C3, C10) *)

Section Callback.

Context {object : Type}.
Implicit Types (w : TrainStep.world object) (self : TrainStep.LogRunMetrics).
Implicit Types (log : list (string * object)) (epochs : list (Z * list (string * object))).

Lemma logged_nil w : logged w [] = w.
Proof. destruct w. unfold logged. simpl. by rewrite app_nil_r. Qed.

Lemma logged_logged w cs1 cs2 : logged (logged w cs1) cs2 = logged w (cs1 ++ cs2).
Proof. unfold logged. simpl. by rewrite app_assoc. Qed.

Lemma for_each_do_call {A : Type} (f : A → TrainStep.call object) (l : list A) w :
  for_each l (λ x, TrainStep.do_call (f x)) w = (Ok (), logged w (map f l)).
Proof.
  revert w. induction l as [|x l IH]; intros w; simpl.
  - by rewrite logged_nil.
  - unfold mbind, st_bind.
    change (TrainStep.do_call (f x) w) with (Ok (), logged w [f x]).
    cbv beta iota. by rewrite IH, logged_logged.
Qed.

Lemma on_epoch_end_eq self epoch log w :
  TrainStep.on_epoch_end self epoch log w
  = (Ok (bump self epoch),
     logged w (forwarded (TrainStep.model_counter (bump self epoch)) log)).
Proof.
  unfold TrainStep.on_epoch_end, bump. unfold mbind, st_bind.
  by rewrite for_each_do_call.
Qed.

Lemma epochs_end_cons self epoch log epochs w :
  TrainStep.epochs_end self ((epoch, log) :: epochs) w
  = TrainStep.epochs_end (bump self epoch) epochs
      (logged w (forwarded (TrainStep.model_counter (bump self epoch)) log)).
Proof.
  simpl. unfold mbind, st_bind. by rewrite on_epoch_end_eq.
Qed.

Lemma new_models_cons epoch log epochs :
  new_models ((epoch, log) :: epochs)
  = (if bool_decide (epoch = 1) then 1 else 0) + new_models epochs.
Proof.
  unfold new_models. rewrite filter_cons. simpl.
  case_bool_decide; [rewrite decide_True by done | rewrite decide_False by done].
  - rewrite length_cons. lia.
  - lia.
Qed.

Lemma bump_counter self epoch :
  TrainStep.model_counter (bump self epoch)
  = TrainStep.model_counter self + (if bool_decide (epoch = 1) then 1 else 0).
Proof. unfold bump. case_bool_decide; simpl; lia. Qed.

Lemma epochs_end_eq self epochs w :
  TrainStep.epochs_end self epochs w
  = (Ok {| TrainStep.model_counter := TrainStep.model_counter self + new_models epochs |},
     logged w (concat (imap (λ i e,
        forwarded (TrainStep.model_counter self + new_models (take (S i) epochs)) e.2)
        epochs))).
Proof.
  revert self w. induction epochs as [|[epoch log] epochs IH]; intros self w.
  - simpl. rewrite logged_nil. unfold new_models. simpl.
    destruct self as [c]. simpl. by rewrite Z.add_0_r.
  - rewrite epochs_end_cons, IH, logged_logged. f_equal.
    + do 2 f_equal. rewrite bump_counter, new_models_cons. lia.
    + f_equal. simpl. f_equal.
      * f_equal. rewrite bump_counter, take_0, new_models_cons.
        unfold new_models. simpl. lia.
      * f_equal. apply imap_ext. intros i e _. simpl. f_equal.
        rewrite bump_counter.
        rewrite (new_models_cons epoch log (take (S i) epochs)). lia.
Qed.

Lemma epochs_end_app self epochs1 epochs2 w :
  TrainStep.epochs_end self (epochs1 ++ epochs2) w
  = TrainStep.epochs_end
      {| TrainStep.model_counter := TrainStep.model_counter self + new_models epochs1 |}
      epochs2
      (TrainStep.epochs_end self epochs1 w).2.
Proof.
  revert self w. induction epochs1 as [|[epoch log] epochs1 IH]; intros self w.
  - simpl. unfold new_models. simpl. destruct self as [c]. simpl.
    by rewrite Z.add_0_r.
  - rewrite <- app_comm_cons, !epochs_end_cons, IH.
    do 2 f_equal. rewrite bump_counter, new_models_cons. lia.
Qed.

(** C3: one call of [on_epoch_end] adds one to the model counter when
    the epoch index is 1 and leaves it alone otherwise, and hands every
    metric of its log to [run.log] as ['model' + str(counter) + '_' +
    name] with the counter it has after that step; so a sequence of
    calls on a fresh callback ends with the counter at the number of
    calls with index 1, having logged, call by call, under the number
    of such calls so far. *)
Theorem model_counter_counts_epoch_1 self epoch log epochs w :
  TrainStep.on_epoch_end self epoch log w
  = (Ok {| TrainStep.model_counter :=
             if bool_decide (epoch = 1)
             then TrainStep.model_counter self + 1
             else TrainStep.model_counter self |},
     {| TrainStep.fs := TrainStep.fs w;
        TrainStep.calls :=
          TrainStep.calls w ++
          map (λ item,
                 TrainStep.run_log
                   ((("model" +:+
                      pretty (if bool_decide (epoch = 1)
                              then TrainStep.model_counter self + 1
                              else TrainStep.model_counter self)) +:+ "_") +:+ item.1)
                   item.2)
              log |}) ∧
  TrainStep.epochs_end TrainStep.LogRunMetrics_init epochs w
  = (Ok {| TrainStep.model_counter := new_models epochs |},
     {| TrainStep.fs := TrainStep.fs w;
        TrainStep.calls :=
          TrainStep.calls w ++
          concat (imap (λ i e, forwarded (new_models (take (S i) epochs)) e.2) epochs) |}).
Proof.
  split.
  - rewrite on_epoch_end_eq. unfold bump, logged, forwarded.
    destruct self as [c]. by case_bool_decide.
  - by rewrite epochs_end_eq.
Qed.

End Callback.

Section FirstModel.

Context {object : Type}.
Implicit Types (w : TrainStep.world object) (self : TrainStep.LogRunMetrics).
Implicit Types (log : list (string * object)) (logs : list (list (string * object))).

Lemma forwarded_0 log : forwarded 0 log = forwarded_as "model0_" log.
Proof. reflexivity. Qed.

Lemma forwarded_1 log : forwarded 1 log = forwarded_as "model1_" log.
Proof. reflexivity. Qed.

(** Epoch ends with an index of 2 or more leave the counter alone. *)
Lemma later_epochs_end logs : ∀ (k : nat) self w,
  (1 ≤ k)%nat →
  TrainStep.epochs_end self (imap (λ i log, (Z.of_nat (S (k + i)), log)) logs) w
  = (Ok self, logged w (concat (map (forwarded (TrainStep.model_counter self)) logs))).
Proof.
  induction logs as [|log logs IH]; intros k self w Hk.
  - simpl. by rewrite logged_nil.
  - rewrite imap_cons. cbv beta. rewrite epochs_end_cons.
    assert (bump self (Z.of_nat (S (k + 0))) = self) as ->.
    { unfold bump. rewrite bool_decide_eq_false_2; [done | lia]. }
    rewrite (imap_ext _ (λ i log, (Z.of_nat (S (S k + i)), log))).
    + rewrite IH by lia. by rewrite logged_logged.
    + intros i x _. simpl. do 2 f_equal. lia.
Qed.

Lemma model_epochs_end log0 logs w :
  TrainStep.epochs_end TrainStep.LogRunMetrics_init (model_epochs (log0 :: logs)) w
  = (Ok {| TrainStep.model_counter := if logs is [] then 0 else 1 |},
     logged w (forwarded_as "model0_" log0 ++ concat (map (forwarded_as "model1_") logs))).
Proof.
  unfold model_epochs. rewrite imap_cons. cbv beta. rewrite epochs_end_cons.
  change (bump TrainStep.LogRunMetrics_init (Z.of_nat 0)) with TrainStep.LogRunMetrics_init.
  destruct logs as [|log1 logs].
  - simpl. by rewrite app_nil_r.
  - rewrite imap_cons. unfold compose. cbv beta. rewrite epochs_end_cons.
    change (bump TrainStep.LogRunMetrics_init (Z.of_nat 1))
      with {| TrainStep.model_counter := 1 |}.
    rewrite (imap_ext _ (λ i log, (Z.of_nat (S (1 + i)), log))) by done.
    rewrite later_epochs_end by lia.
    by rewrite !logged_logged.
Qed.

(** C10: of the first model a run trains, the metrics of epoch 0 are
    logged under ['model0_'] and the metrics of every later epoch
    under ['model1_'], whatever is reported after that model. *)
Theorem first_model_split_over_two_prefixes log0 logs rest w :
  ∃ self' later,
    TrainStep.epochs_end TrainStep.LogRunMetrics_init
      (model_epochs (log0 :: logs) ++ rest) w
    = (Ok self',
       {| TrainStep.fs := TrainStep.fs w;
          TrainStep.calls :=
            TrainStep.calls w ++
            forwarded_as "model0_" log0 ++
            concat (map (forwarded_as "model1_") logs) ++
            later |}).
Proof.
  rewrite epochs_end_app, model_epochs_end. simpl.
  rewrite epochs_end_eq, logged_logged.
  eexists _, _. unfold logged. by rewrite <- !app_assoc.
Qed.

End FirstModel.

(** * Directory provisioning (C6) *)

Lemma prefix_snoc_iff {A : Type} (q h : list A) (t : A) :
  q `prefix_of` h ++ [t] ↔ q = h ++ [t] ∨ q `prefix_of` h.
Proof.
  split.
  - intros [k Hk]. destruct k as [|c k _] using rev_ind.
    + left. by rewrite app_nil_r in Hk.
    + right. rewrite app_assoc in Hk. apply app_inj_tail in Hk as [-> _].
      by exists k.
  - intros [->|Hq]; [done | by apply prefix_app_r].
Qed.

Lemma node_at_snoc fs (p : list string) c : OS.node_at fs (p ++ [c]) = fs !! (p ++ [c]).
Proof. unfold OS.node_at. by destruct p. Qed.

Lemma node_at_insert_snoc fs (p : list string) c v q :
  OS.node_at (<[p ++ [c] := v]> fs) q
  = if decide (q = p ++ [c]) then Some v else OS.node_at fs q.
Proof.
  case_decide as Hq.
  - subst q. by rewrite node_at_snoc, lookup_insert_eq.
  - unfold OS.node_at. destruct q; [done |]. by rewrite lookup_insert_ne.
Qed.

Lemma wf_empty : OS.wf ∅.
Proof. intros p c [v Hv]. by rewrite lookup_empty in Hv. Qed.

Lemma wf_insert_snoc fs (p : list string) c :
  OS.wf fs → OS.node_at fs p = Some OS.Dir → OS.wf (<[p ++ [c] := OS.Dir]> fs).
Proof.
  intros Hwf Hp q d Hq. rewrite node_at_insert_snoc.
  rewrite lookup_insert in Hq. case_decide as Heq.
  - apply app_inj_tail in Heq as [<- <-].
    case_decide as Hself; [done | done].
  - case_decide as Hself; [done |]. by apply (Hwf q d).
Qed.

(** In a well-formed filesystem everything above an entry is a directory. *)
Lemma wf_above fs (p q : list string) :
  OS.wf fs → is_Some (OS.node_at fs q) → p `prefix_of` q → p ≠ q →
  OS.node_at fs p = Some OS.Dir.
Proof.
  intros Hwf Hq [k ->]. revert Hq.
  induction k as [|c k IH] using rev_ind; intros Hq Hne.
  - by rewrite app_nil_r in Hne.
  - rewrite app_assoc, node_at_snoc in Hq. apply (Hwf (p ++ k) c) in Hq.
    destruct (decide (k = [])) as [->|Hk].
    + by rewrite app_nil_r in Hq.
    + apply IH; [by rewrite Hq |].
      intros Heq. apply Hk. apply (inj (app p)). by rewrite app_nil_r.
Qed.

Lemma mkdir_snoc fs (p : list string) c :
  OS.mkdir (p ++ [c]) fs
  = match OS.node_at fs (p ++ [c]) with
    | Some _ => (Raise FileExistsError, fs)
    | None =>
        match OS.node_at fs p with
        | None => (Raise FileNotFoundError, fs)
        | Some OS.File => (Raise NotADirectoryError, fs)
        | Some OS.Dir => (Ok (), <[p ++ [c] := OS.Dir]> fs)
        end
    end.
Proof. unfold OS.mkdir. by rewrite reverse_snoc, reverse_involutive. Qed.

Lemma makedirs_rev_cons tail rhead fs :
  OS.makedirs_rev (tail :: rhead) fs
  = if bool_decide (is_Some (OS.node_at fs (reverse rhead)))
    then OS.mkdir (reverse rhead ++ [tail]) fs
    else match OS.makedirs_rev rhead fs with
         | (Ok _, fs1) | (Raise FileExistsError, fs1) =>
             OS.mkdir (reverse rhead ++ [tail]) fs1
         | (Raise e, fs1) => (Raise e, fs1)
         end.
Proof.
  simpl. unfold mbind, st_bind, OS.path_exists, except_FileExistsError_pass.
  rewrite reverse_cons.
  case_bool_decide; simpl; [done |].
  destruct (OS.makedirs_rev rhead fs) as [[[]|e] fs1]; [done |].
  by destruct e.
Qed.

(** [os.makedirs] on an absent path of a well-formed filesystem: when
    it returns, the path and everything above it are directories and
    nothing else changed; it never raises [FileExistsError]. *)
Lemma makedirs_rev_spec rname : ∀ fs,
  OS.wf fs → OS.node_at fs (reverse rname) = None →
  match OS.makedirs_rev rname fs with
  | (Ok _, fs') =>
      OS.wf fs' ∧
      ∀ q, OS.node_at fs' q
           = if decide (q `prefix_of` reverse rname) then Some OS.Dir else OS.node_at fs q
  | (Raise e, _) => e ≠ FileExistsError
  end.
Proof.
  induction rname as [|tail rhead IH]; intros fs Hwf Habs; [done |].
  rewrite makedirs_rev_cons. rewrite reverse_cons in *.
  set (h := reverse rhead) in *.
  case_bool_decide as Hh.
  - rewrite mkdir_snoc, Habs.
    destruct (OS.node_at fs h) as [[|]|] eqn:Hnode; [done | | by destruct Hh].
    split; [by apply wf_insert_snoc |].
    intros q. rewrite node_at_insert_snoc.
    destruct (decide (q = h ++ [tail])) as [->|Hq].
    + by rewrite decide_True.
    + case_decide as Hpre; [|done].
      apply prefix_snoc_iff in Hpre as [?|Hpre]; [done |].
      destruct (decide (q = h)) as [->|Hqh]; [done |].
      apply (wf_above fs q h); [done | by rewrite Hnode | done | done].
  - assert (OS.node_at fs h = None) as Hnone.
    { destruct (OS.node_at fs h) eqn:E; [|done]. destruct Hh. by eexists. }
    specialize (IH fs Hwf Hnone).
    destruct (OS.makedirs_rev rhead fs) as [[[]|e] fs1].
    + destruct IH as [Hwf1 Hfs1].
      rewrite mkdir_snoc, !Hfs1.
      rewrite decide_False by apply prefix_snoc_not.
      rewrite Habs, decide_True by done.
      split; [apply wf_insert_snoc; [done |]; by rewrite Hfs1, decide_True |].
      intros q. rewrite node_at_insert_snoc.
      destruct (decide (q = h ++ [tail])) as [->|Hq].
      * by rewrite decide_True.
      * rewrite Hfs1. case_decide as Hpre.
        -- rewrite decide_True; [done |]. by apply prefix_app_r.
        -- rewrite decide_False; [done |].
           intros [?|?]%prefix_snoc_iff; done.
    + by destruct e.
Qed.

Lemma makedirs_spec name fs :
  OS.wf fs → OS.node_at fs name = None →
  match OS.makedirs name fs with
  | (Ok _, fs') =>
      OS.wf fs' ∧
      ∀ q, OS.node_at fs' q
           = if decide (q `prefix_of` name) then Some OS.Dir else OS.node_at fs q
  | (Raise e, _) => e ≠ FileExistsError
  end.
Proof.
  intros Hwf Habs. unfold OS.makedirs.
  pose proof (makedirs_rev_spec (reverse name) fs Hwf) as H.
  rewrite reverse_involutive in H. by apply H.
Qed.

(** With no file in the way, [os.makedirs] returns. *)
Lemma makedirs_rev_returns rname : ∀ fs,
  OS.wf fs → OS.node_at fs (reverse rname) = None →
  (∀ q, q `prefix_of` reverse rname → OS.node_at fs q ≠ Some OS.File) →
  ∃ fs', OS.makedirs_rev rname fs = (Ok (), fs').
Proof.
  induction rname as [|tail rhead IH]; intros fs Hwf Habs Hfree; [done |].
  pose proof (makedirs_rev_spec rhead fs Hwf) as Hspec.
  rewrite makedirs_rev_cons. rewrite reverse_cons in *.
  set (h := reverse rhead) in *.
  assert (OS.node_at fs h ≠ Some OS.File) as Hh
    by (apply Hfree; by apply prefix_app_r).
  case_bool_decide as Hex.
  - rewrite mkdir_snoc, Habs. destruct Hex as [[|] Hnode]; [done |].
    rewrite Hnode. by eexists.
  - assert (OS.node_at fs h = None) as Hnone.
    { destruct (OS.node_at fs h) eqn:E; [|done]. destruct Hex. by eexists. }
    destruct (IH fs Hwf Hnone) as [fs1 Hrun].
    { intros q Hq. apply Hfree. by apply prefix_app_r. }
    specialize (Hspec Hnone). rewrite Hrun in *. destruct Hspec as [_ Hfs1].
    rewrite mkdir_snoc, !Hfs1.
    rewrite decide_False by apply prefix_snoc_not.
    rewrite Habs, decide_True by done. by eexists.
Qed.

Lemma provision_eq dir fs :
  provision dir fs
  = if bool_decide (is_Some (OS.node_at fs dir)) then (Ok (), fs) else OS.makedirs dir fs.
Proof.
  unfold provision, mbind, st_bind, OS.path_exists. by case_bool_decide.
Qed.

Lemma fs_with_file_wf : OS.wf fs_with_file.
Proof.
  intros p c [v Hv]. unfold fs_with_file in Hv.
  apply lookup_insert_Some in Hv as [[Hp _]|[_ Hv]].
  - change ["mnt"] with ([] ++ ["mnt"]) in Hp. by apply app_inj_tail in Hp as [<- _].
  - apply lookup_insert_Some in Hv as [[Hp _]|[_ Hv]]; [|by rewrite lookup_empty in Hv].
    change ["mnt"; "output"] with (["mnt"] ++ ["output"]) in Hp.
    by apply app_inj_tail in Hp as [<- _].
Qed.

(** C6, as stated, fails when the path is taken by a regular file:
    [os.path.exists] answers [True], nothing is created, the call
    returns, and what is at the path is not a directory. *)
Lemma provision_over_a_file :
  OS.wf fs_with_file ∧
  provision ["mnt"; "output"] fs_with_file = (Ok (), fs_with_file) ∧
  OS.node_at fs_with_file ["mnt"; "output"] = Some OS.File ∧
  OS.node_at fs_with_file ["mnt"; "output"] ≠ Some OS.Dir.
Proof.
  split; [exact fs_with_file_wf |].
  split; [by vm_compute |].
  split; [by vm_compute |].
  vm_compute. discriminate.
Qed.

(** C6 (amended): on a well-formed filesystem, provisioning a path
    that exists returns without any change; provisioning an absent
    path with no regular file above it returns; and whenever
    provisioning returns, the filesystem is well formed, the path
    exists, it is a directory unless a regular file was there before,
    an absent path has been created together with every missing
    directory above it while all other paths are as before, and
    provisioning the same path again returns with the same
    filesystem. *)
Theorem provision_guarantee dir fs :
  OS.wf fs →
  (is_Some (OS.node_at fs dir) → provision dir fs = (Ok (), fs)) ∧
  (OS.node_at fs dir = None →
   (∀ q, q `prefix_of` dir → OS.node_at fs q ≠ Some OS.File) →
   ∃ fs', provision dir fs = (Ok (), fs')) ∧
  (∀ fs', provision dir fs = (Ok (), fs') →
     OS.wf fs' ∧
     is_Some (OS.node_at fs' dir) ∧
     (OS.node_at fs dir ≠ Some OS.File → OS.node_at fs' dir = Some OS.Dir) ∧
     (OS.node_at fs dir = None →
      ∀ q, OS.node_at fs' q
           = if decide (q `prefix_of` dir) then Some OS.Dir else OS.node_at fs q) ∧
     provision dir fs' = (Ok (), fs')).
Proof.
  intros Hwf. rewrite provision_eq. split_and!.
  - intros Hex. by rewrite bool_decide_eq_true_2.
  - intros Habs Hfree. rewrite bool_decide_eq_false_2 by by rewrite Habs; intros [? ?].
    unfold OS.makedirs. apply makedirs_rev_returns; rewrite ?reverse_involutive; done.
  - intros fs'. case_bool_decide as Hex.
    + intros [= <-]. split_and!; [done | done | | | ].
      * destruct Hex as [[|] Hnode]; [done | by rewrite Hnode].
      * intros Habs. rewrite Habs in Hex. by destruct Hex.
      * by rewrite provision_eq, bool_decide_eq_true_2.
    + assert (OS.node_at fs dir = None) as Habs.
      { destruct (OS.node_at fs dir) eqn:E; [|done]. destruct Hex. by eexists. }
      pose proof (makedirs_spec dir fs Hwf Habs) as Hspec.
      intros Hrun. rewrite Hrun in Hspec. destruct Hspec as [Hwf' Hfs'].
      assert (OS.node_at fs' dir = Some OS.Dir) as Hdir
        by by rewrite Hfs', decide_True.
      split_and!; [done | by rewrite Hdir | done | done |].
      rewrite provision_eq, bool_decide_eq_true_2; [done | by rewrite Hdir].
Qed.

Lemma provision_guarantee_witness :
  OS.wf ∅ ∧
  provision ["mnt"; "output"] ∅ = (Ok (), fs_with_output) ∧
  OS.node_at fs_with_output ["mnt"; "output"] = Some OS.Dir ∧
  OS.node_at fs_with_output ["mnt"] = Some OS.Dir ∧
  provision ["mnt"; "output"] fs_with_output = (Ok (), fs_with_output).
Proof.
  split; [exact wf_empty |].
  assert (provision ["mnt"; "output"] ∅ = (Ok (), fs_with_output)) as Hrun
    by (vm_compute; reflexivity).
  split; [exact Hrun |].
  destruct (provision_guarantee ["mnt"; "output"] ∅ wf_empty) as (_ & _ & Hret).
  destruct (Hret fs_with_output Hrun) as (_ & _ & Hdir & Hnew & Hagain).
  split; [apply Hdir; vm_compute; discriminate |].
  split; [|exact Hagain].
  rewrite (Hnew eq_refl ["mnt"]). apply decide_True. by exists ["output"].
Defined.

(** * Persisting the model (C4, C9) *)

Section Persist.

Context {object : Type}.
Implicit Types (w : TrainStep.world object) (c : TrainStep.call object).

Lemma st_bind_eq {A B : Type} (m : st (TrainStep.world object) A)
    (k : A → st (TrainStep.world object) B) w :
  (m ≫= k) w
  = match m w with
    | (Ok a, w1) => k a w1
    | (Raise e, w1) => (Raise e, w1)
    end.
Proof. reflexivity. Qed.

Lemma quiet_bind {A B : Type} (m : st (TrainStep.world object) A)
    (k : A → st (TrainStep.world object) B) :
  quiet m → (∀ a, quiet (k a)) → quiet (m ≫= k).
Proof.
  intros Hm Hk w r w'. rewrite st_bind_eq.
  destruct (m w) as [[a|e] w1] eqn:Hrun.
  - intros Hrest. destruct (Hm _ _ _ Hrun) as (cs1 & E1 & F1).
    destruct (Hk a _ _ _ Hrest) as (cs2 & E2 & F2).
    exists (cs1 ++ cs2). rewrite E2, E1, app_assoc. split; [done |].
    by apply Forall_app.
  - intros [= <- <-]. by apply (Hm _ _ _ Hrun).
Qed.

Lemma quiet_lift {A : Type} (r : result A) : quiet (object := object) (lift r).
Proof. intros w r' w' [= <- <-]. exists []. by rewrite app_nil_r. Qed.

Lemma quiet_ret {A : Type} (a : A) : quiet (object := object) (mret a).
Proof. intros w r' w' [= <- <-]. exists []. by rewrite app_nil_r. Qed.

Lemma quiet_on_fs {A : Type} (m : st (gmap (list string) OS.node) A) :
  quiet (object := object) (TrainStep.on_fs m).
Proof.
  intros w r w'. unfold TrainStep.on_fs.
  destruct (m (TrainStep.fs w)) as [r1 fs1]. intros [= <- <-].
  exists []. simpl. by rewrite app_nil_r.
Qed.

Lemma quiet_do_call c : is_save_model c = false → quiet (TrainStep.do_call c).
Proof.
  intros Hc w r w' [= <- <-]. exists [c]. split; [done |]. by constructor.
Qed.

Lemma quiet_logged {A : Type} (m : st (TrainStep.world object) A) :
  (∀ w, ∃ a cs, m w = (Ok a, logged w cs) ∧ Forall (λ c, is_save_model c = false) cs) →
  quiet m.
Proof.
  intros Hm w r w' Hrun. destruct (Hm w) as (a & cs & E & F).
  rewrite E in Hrun. injection Hrun as <- <-. by exists cs.
Qed.

Lemma quiet_for_each {A : Type} (f : A → TrainStep.call object) (l : list A) :
  (∀ x, is_save_model (f x) = false) →
  quiet (for_each l (λ x, TrainStep.do_call (f x))).
Proof.
  intros Hf. apply quiet_logged. intros w. eexists _, _.
  split; [apply for_each_do_call |].
  apply Forall_forall. intros c (x & -> & _)%list_elem_of_fmap. apply Hf.
Qed.

Lemma quiet_epochs_end self epochs :
  quiet (object := object) (TrainStep.epochs_end self epochs).
Proof.
  apply quiet_logged. intros w. eexists _, _.
  split; [apply epochs_end_eq |].
  apply Forall_concat, Forall_forall.
  intros cs Hcs. apply elem_of_lookup_imap in Hcs as (i & e & -> & _).
  unfold forwarded. apply Forall_forall.
  by intros c (x & -> & _)%list_elem_of_fmap.
Qed.

Lemma returns_bind {A B : Type} (m : st (TrainStep.world object) A)
    (k : A → st (TrainStep.world object) B) (P : B → Prop) :
  (∀ a, returns (k a) P) → returns (m ≫= k) P.
Proof.
  intros Hk w b w'. rewrite st_bind_eq.
  destruct (m w) as [[a|e] w1]; [|done]. apply Hk.
Qed.

Lemma returns_ret {A : Type} (a : A) (P : A → Prop) :
  P a → returns (object := object) (mret a) P.
Proof. by intros Ha w a' w' [= <- <-]. Qed.

End Persist.

Section Training.

Context {object : Type}.
Variable resolve : string → list string.
Variable load_dataset : yaml → result (gmap string object).
Variable multi_train :
  yaml → gmap string object → yaml → yaml →
  list (Z * list (string * object)) * result (object * list (string * object) * object).
Variable predict : object → object → yaml → result object.
Variable plot_roc : string → object → object → result object.
Variable plot_confusion_matrix : object → object → result object.

Local Abbreviation train_and_report :=
  (TrainStep.train_and_report object resolve load_dataset multi_train predict
     plot_roc plot_confusion_matrix).
Local Abbreviation main :=
  (TrainStep.main object resolve load_dataset multi_train predict
     plot_roc plot_confusion_matrix).

Ltac quiet_step :=
  first
    [ apply quiet_lift | apply quiet_ret | apply quiet_on_fs
    | apply quiet_epochs_end
    | apply quiet_for_each; done
    | apply quiet_do_call; done
    | apply quiet_bind; [| intros ?]
    | match goal with
      | |- quiet (match ?x with _ => _ end) => destruct x
      end ].

Lemma train_and_report_quiet a cfg0 : quiet (train_and_report a cfg0).
Proof. unfold TrainStep.train_and_report. repeat quiet_step. Qed.

Ltac returns_step :=
  first
    [ apply returns_ret; done
    | apply returns_bind; intros ?
    | match goal with
      | |- returns (match ?x with _ => _ end) _ => destruct x
      end ].

Lemma train_and_report_cfg a cfg0 w cfg model w1 :
  train_and_report a cfg0 w = (Ok (cfg, model), w1) →
  TrainStep.rewrite_paths a cfg0 = Ok cfg.
Proof.
  unfold TrainStep.train_and_report. rewrite st_bind_eq. unfold lift at 1.
  destruct (TrainStep.rewrite_paths a cfg0) as [cfg1|]; [|done].
  intros Hrest. f_equal.
  eapply (λ H, H w (cfg, model) w1 Hrest : (λ x, cfg1 = x.1) (cfg, model)).
  repeat returns_step.
Qed.

Lemma save_weights_eq m p (model : object) w :
  m !! "PATHS" = Some (YMap p) →
  TrainStep.save_weights (YMap m) model w
  = match p !! "MODEL_WEIGHTS" with
    | None => (Raise (KeyError "MODEL_WEIGHTS"), w)
    | Some weights =>
        if is_not_None weights
        then match p !! "MODEL_TO_LOAD" with
             | Some filepath => (Ok (), logged w [TrainStep.save_model model filepath])
             | None => (Raise (KeyError "MODEL_TO_LOAD"), w)
             end
        else (Ok (), w)
    end.
Proof.
  intros Hm. unfold TrainStep.save_weights. rewrite st_bind_eq.
  unfold lift, getitem. unfold_result. rewrite Hm. simpl.
  destruct (p !! "MODEL_WEIGHTS") as [weights|]; simpl; [|done].
  destruct (is_not_None weights); [|done].
  unfold st_bind. by destruct (p !! "MODEL_TO_LOAD").
Qed.

Lemma train_rewrite_guard a cfg cfg' :
  TrainStep.rewrite_paths a cfg = Ok cfg' →
  paths_entry cfg' "MODEL_WEIGHTS" = paths_entry cfg "MODEL_WEIGHTS" ∧
  ∃ d s,
    TrainStep.trainoutputdir a = Some d ∧
    paths_entry cfg "MODEL_TO_LOAD" = Some (YStr s) ∧
    paths_entry cfg' "MODEL_TO_LOAD" = Some (YStr ((d +:+ "/") +:+ last_segment s)).
Proof.
  intros Hrun. split.
  - apply (stage_rewrite_frame (Training a)); [done | | done].
    apply (bool_decide_unpack _). by vm_compute.
  - destruct (stage_rewrite_relocates (Training a) _ _
                (TrainStep.trainoutputdir a) "MODEL_TO_LOAD" Hrun)
      as (d & Hd & s & Hs & Hs').
    + simpl. unfold train_plan.
      repeat first [apply list_elem_of_here | apply list_elem_of_further].
    + by exists d, s.
Qed.

Lemma save_weights_after_rewrite a cfg cfg' (model : object) w :
  TrainStep.rewrite_paths a cfg = Ok cfg' →
  TrainStep.save_weights cfg' model w
  = match paths_entry cfg "MODEL_WEIGHTS", paths_entry cfg' "MODEL_TO_LOAD" with
    | Some weights, Some filepath =>
        if is_not_None weights
        then (Ok (), logged w [TrainStep.save_model model filepath])
        else (Ok (), w)
    | _, _ => (Raise (KeyError "MODEL_WEIGHTS"), w)
    end.
Proof.
  intros Hrun.
  destruct (train_rewrite_guard _ _ _ Hrun) as (Hw & d & s & _ & _ & Hdest).
  rewrite <- Hw, Hdest.
  apply train_rewrite_inv in Hrun as (m & p & p' & -> & Hm & -> & _).
  rewrite (save_weights_eq _ p') by by rewrite lookup_insert_eq.
  rewrite paths_entry_insert in *. rewrite Hdest.
  by destruct (p' !! "MODEL_WEIGHTS").
Qed.

(** C4: once the training script has finished its reports, with
    [PATHS.MODEL_WEIGHTS] loaded as [weights], the script ends normally
    having called [save_model] exactly when [weights] is not null, as
    its last call, on the trained model and the value found under
    [PATHS.MODEL_TO_LOAD]; the reports themselves never call
    [save_model]. *)
Theorem save_model_iff_weights_configured a cfg0 w cfg model w1 weights :
  train_and_report a cfg0 w = (Ok (cfg, model), w1) →
  paths_entry cfg0 "MODEL_WEIGHTS" = Some weights →
  ∃ reported filepath,
    TrainStep.calls w1 = TrainStep.calls w ++ reported ∧
    Forall (λ c, is_save_model c = false) reported ∧
    paths_entry cfg "MODEL_TO_LOAD" = Some filepath ∧
    main a cfg0 w
    = (Ok (), logged w1 (if is_not_None weights
                         then [TrainStep.save_model model filepath] else [])) ∧
    ((∃ c, c ∈ reported ++ (if is_not_None weights
                            then [TrainStep.save_model model filepath] else []) ∧
           is_save_model c = true)
     ↔ weights ≠ YNull).
Proof.
  intros Hreport Hweights.
  destruct (train_and_report_quiet _ _ _ _ _ Hreport) as (reported & Hcalls & Hquiet).
  pose proof (train_and_report_cfg _ _ _ _ _ _ Hreport) as Hcfg.
  destruct (train_rewrite_guard _ _ _ Hcfg) as (_ & d & s & _ & _ & Hdest).
  exists reported, (YStr ((d +:+ "/") +:+ last_segment s)).
  split_and!; [done..| |].
  - unfold TrainStep.main. rewrite st_bind_eq, Hreport.
    rewrite (save_weights_after_rewrite _ _ _ _ _ Hcfg), Hweights, Hdest.
    destruct (is_not_None weights); [done | by rewrite logged_nil].
  - split.
    + intros (c & [Hc|Hc]%elem_of_app & Hsave).
      * rewrite Forall_forall in Hquiet. by rewrite (Hquiet _ Hc) in Hsave.
      * intros ->. simpl in Hc. by apply elem_of_nil in Hc.
    + intros Hne.
      exists (TrainStep.save_model model (YStr ((d +:+ "/") +:+ last_segment s))).
      split; [|done]. apply elem_of_app. right.
      destruct weights; [done | apply list_elem_of_here..].
Qed.

End Training.

Lemma save_model_iff_weights_configured_witness :
  TrainStep.train_and_report string sample_resolve sample_load_dataset
    sample_multi_train sample_predict sample_plot_roc sample_plot_confusion_matrix
    sample_train_args sample_cfg sample_world
  = (Ok (sample_cfg_trained, "model"), sample_world_reported) ∧
  paths_entry sample_cfg "MODEL_WEIGHTS" = Some (YStr "results/models/") ∧
  TrainStep.main string sample_resolve sample_load_dataset
    sample_multi_train sample_predict sample_plot_roc sample_plot_confusion_matrix
    sample_train_args sample_cfg sample_world
  = (Ok (),
     logged sample_world_reported
       [TrainStep.save_model "model" (YStr "/mnt/train/model.h5")]).
Proof.
  assert (TrainStep.train_and_report string sample_resolve sample_load_dataset
            sample_multi_train sample_predict sample_plot_roc
            sample_plot_confusion_matrix sample_train_args sample_cfg sample_world
          = (Ok (sample_cfg_trained, "model"), sample_world_reported)) as Hreport
    by (vm_compute; reflexivity).
  assert (paths_entry sample_cfg "MODEL_WEIGHTS" = Some (YStr "results/models/"))
    as Hweights by (vm_compute; reflexivity).
  split; [exact Hreport |]. split; [exact Hweights |].
  destruct (save_model_iff_weights_configured _ _ _ _ _ _ _ _ _ _ _ _ _
              Hreport Hweights) as (reported & filepath & _ & _ & Hpath & Hmain & _).
  vm_compute in Hpath. injection Hpath as <-. exact Hmain.
Defined.

(** The same run on a configuration with a null [MODEL_WEIGHTS] makes
    the same reports and stops there. *)
Example null_weights_run :
  TrainStep.main string sample_resolve sample_load_dataset
    sample_multi_train sample_predict sample_plot_roc sample_plot_confusion_matrix
    sample_train_args sample_cfg_null sample_world
  = (Ok (), sample_world_reported).
Proof. vm_compute. reflexivity. Qed.

Section Guard.

Context {object : Type}.

(** C9: the training stage's rewrite leaves [PATHS.MODEL_WEIGHTS] as
    loaded and puts the loaded file name of [PATHS.MODEL_TO_LOAD] under
    [--trainoutputdir]; so the guard of lines 70-71 saves the model if
    and only if the loaded [MODEL_WEIGHTS] is not null, and saves it at
    that path. *)
Theorem weights_guard_reads_loaded_value a cfg cfg' :
  TrainStep.rewrite_paths a cfg = Ok cfg' →
  paths_entry cfg' "MODEL_WEIGHTS" = paths_entry cfg "MODEL_WEIGHTS" ∧
  ∃ d s,
    TrainStep.trainoutputdir a = Some d ∧
    paths_entry cfg "MODEL_TO_LOAD" = Some (YStr s) ∧
    paths_entry cfg' "MODEL_TO_LOAD" = Some (YStr ((d +:+ "/") +:+ last_segment s)) ∧
    ∀ (model : object) w,
      TrainStep.save_weights cfg' model w
      = match paths_entry cfg "MODEL_WEIGHTS" with
        | Some weights =>
            if is_not_None weights
            then (Ok (),
                  logged w [TrainStep.save_model model
                              (YStr ((d +:+ "/") +:+ last_segment s))])
            else (Ok (), w)
        | None => (Raise (KeyError "MODEL_WEIGHTS"), w)
        end.
Proof.
  intros Hrun.
  destruct (train_rewrite_guard _ _ _ Hrun) as (Hw & d & s & Hd & Hs & Hdest).
  split; [done |]. exists d, s. split_and!; [done..|].
  intros model w. rewrite (save_weights_after_rewrite _ _ _ _ _ Hrun), Hdest.
  by destruct (paths_entry cfg "MODEL_WEIGHTS").
Qed.

End Guard.

Lemma weights_guard_reads_loaded_value_witness :
  TrainStep.rewrite_paths sample_train_args sample_cfg = Ok sample_cfg_trained ∧
  paths_entry sample_cfg_trained "MODEL_WEIGHTS" = Some (YStr "results/models/") ∧
  paths_entry sample_cfg_trained "MODEL_TO_LOAD" = Some (YStr "/mnt/train/model.h5").
Proof.
  assert (TrainStep.rewrite_paths sample_train_args sample_cfg = Ok sample_cfg_trained)
    as Hrun by (vm_compute; reflexivity).
  split; [exact Hrun |].
  destruct (weights_guard_reads_loaded_value (object := string) _ _ _ Hrun)
    as (Hw & d & s & Hd & Hs & Hdest & _).
  split.
  - rewrite Hw. vm_compute. reflexivity.
  - rewrite Hdest. vm_compute in Hd, Hs. injection Hd as <-. injection Hs as <-.
    vm_compute. reflexivity.
Defined.

(** * Further properties of the rewrite *)


Lemma stage_rewrite_plan st cfg :
  stage_rewrite st cfg
  = match st with
    | Preprocessing a => rewrite_all (relocated_keys st) cfg
    | Training a =>
        cfg ← rewrite_all (relocated_keys st) cfg;
        assign_entry "LOGS" (of_arg (TrainStep.traininglogsdir a)) cfg
    end.
Proof.
  destruct st as [a|a]; simpl;
    [apply preprocess_rewrite_paths_plan | apply train_rewrite_paths_plan].
Qed.

Lemma relocated_keys_NoDup st : NoDup (relocated_keys st).*2.
Proof.
  destruct st as [a|a]; [apply preprocess_plan_NoDup | apply train_plan_NoDup].
Qed.

Lemma relocated_keys_not_nil st : relocated_keys st ≠ [].
Proof. by destruct st. Qed.

(** X1: a stage's rewrite returns a configuration exactly when every
    directory argument it uses was given and every key it relocates
    holds a string; the training stage needs neither
    [--traininglogsdir] nor a loaded [PATHS.LOGS]. *)
Theorem stage_rewrite_succeeds_iff st cfg :
  (∃ cfg', stage_rewrite st cfg = Ok cfg') ↔
  (∀ dir key, (dir, key) ∈ relocated_keys st →
     is_Some dir ∧ ∃ s, paths_entry cfg key = Some (YStr s)).
Proof.
  split.
  - intros [cfg' Hrun] dir key Hin.
    destruct (stage_rewrite_relocates _ _ _ _ _ Hrun Hin) as (d & -> & s & Hs & _).
    eauto.
  - intros Hall.
    assert (∃ m p, cfg = YMap m ∧ m !! "PATHS" = Some (YMap p)) as (m & p & -> & Hm).
    { pose proof (relocated_keys_not_nil st) as Hne.
      destruct (relocated_keys st) as [|[dir key] plan] eqn:E; [done |].
      destruct (Hall dir key) as [_ [s Hs]]; [by left |].
      apply paths_entry_Some_inv in Hs as (m & p & -> & Hm & _). eauto. }
    destruct (rewrite_all_succeeds (relocated_keys st) m p Hm) as [cfg1 Hrun].
    { intros dir key Hin. destruct (Hall _ _ Hin) as [Hd [s Hs]].
      rewrite (paths_entry_map _ _ _ Hm) in Hs. eauto. }
    rewrite stage_rewrite_plan. destruct st as [a|a]; [by exists cfg1 |].
    rewrite Hrun. unfold mbind, result_bind.
    destruct (rewrite_all_inv _ _ _ _ (relocated_keys_NoDup (Training a)) Hm Hrun)
      as (p1 & -> & _).
    eexists. apply assign_entry_eq. by rewrite lookup_insert_eq.
Qed.

Lemma rewrite_entry_raises dir key cfg e :
  rewrite_entry dir key cfg = Raise e →
  e = TypeError ∨ e = AttributeError ∨ e = KeyError "PATHS" ∨ e = KeyError key.
Proof.
  unfold rewrite_entry. unfold_result.
  destruct dir as [d|]; simpl; [|intros [= <-]; auto].
  destruct cfg as [| | | | |m]; simpl; try (intros [= <-]; auto).
  destruct (m !! "PATHS") as [[| | | | |p]|] eqn:Hm; simpl;
    try (intros [= <-]; auto).
  destruct (p !! key) as [[| | |s| |]|] eqn:Hp; simpl;
    try (intros [= <-]; auto).
  by rewrite index_last_split.
Qed.

Lemma rewrite_all_raises plan cfg e :
  rewrite_all plan cfg = Raise e →
  e = TypeError ∨ e = AttributeError ∨ e = KeyError "PATHS" ∨
  ∃ key, key ∈ plan.*2 ∧ e = KeyError key.
Proof.
  revert cfg. induction plan as [|[dir key] plan IH]; intros cfg; [done |].
  simpl. unfold mbind, result_bind at 1.
  destruct (rewrite_entry dir key cfg) as [cfg1|e1] eqn:H1.
  - intros Hrest. destruct (IH _ Hrest) as [?|[?|[?|(k & Hk & ?)]]]; auto.
    do 3 right. exists k. split; [by right | done].
  - intros [= <-]. destruct (rewrite_entry_raises _ _ _ _ H1) as [?|[?|[?|?]]]; auto.
    do 3 right. exists key. split; [by left | done].
Qed.

(** X2: whatever the configuration and the command line, a stage's
    rewrite raises nothing but [TypeError], [AttributeError],
    [KeyError('PATHS')] or a [KeyError] on one of the keys it
    relocates; in particular [[-1]] never raises [IndexError]. *)
Theorem stage_rewrite_raises_only st cfg e :
  stage_rewrite st cfg = Raise e →
  e = TypeError ∨ e = AttributeError ∨ e = KeyError "PATHS" ∨
  ∃ key, key ∈ (relocated_keys st).*2 ∧ e = KeyError key.
Proof.
  rewrite stage_rewrite_plan. destruct st as [a|a].
  - apply rewrite_all_raises.
  - unfold mbind, result_bind.
    destruct (rewrite_all (relocated_keys (Training a)) cfg) as [cfg1|e1] eqn:Hrun.
    + destruct (rewrite_all_head _ _ _ (relocated_keys_not_nil _) Hrun)
        as (m & p & -> & Hm).
      destruct (rewrite_all_inv _ _ _ _ (relocated_keys_NoDup (Training a)) Hm Hrun)
        as (p1 & -> & _).
      by rewrite (assign_entry_eq _ _ _ p1) by by rewrite lookup_insert_eq.
    + intros [= <-]. by apply rewrite_all_raises in Hrun.
Qed.

Lemma stage_rewrite_raises_only_witness :
  stage_rewrite (Training sample_train_args) (without_entry "TEST_SET" sample_cfg)
  = Raise (KeyError "TEST_SET") ∧
  (KeyError "TEST_SET" = TypeError ∨ KeyError "TEST_SET" = AttributeError ∨
   KeyError "TEST_SET" = KeyError "PATHS" ∨
   ∃ key, key ∈ (relocated_keys (Training sample_train_args)).*2 ∧
          KeyError "TEST_SET" = KeyError key).
Proof.
  assert (stage_rewrite (Training sample_train_args) (without_entry "TEST_SET" sample_cfg)
          = Raise (KeyError "TEST_SET")) as Hrun by (vm_compute; reflexivity).
  split; [exact Hrun |].
  exact (stage_rewrite_raises_only _ _ _ Hrun).
Defined.




(** X4: whatever directory a loaded value names, the relocation
    statement keeps only what follows its last ['/']: a value
    [pre + '/' + name] with no ['/'] in [name] becomes [d + '/' + name],
    and a value ending in ['/'] becomes [d + '/']. *)
Theorem relocation_replaces_directory d key cfg pre name :
  paths_entry cfg key = Some (YStr ((pre +:+ "/") +:+ name)) →
  has_char "/" name = false →
  ∃ cfg', rewrite_entry (Some d) key cfg = Ok cfg' ∧
          paths_entry cfg' key = Some (YStr ((d +:+ "/") +:+ name)) ∧
          (name = EmptyString → paths_entry cfg' key = Some (YStr (d +:+ "/"))).
Proof.
  intros (m & p & -> & Hm & Hp)%paths_entry_Some_inv Hname.
  eexists. split; [by apply rewrite_entry_eq |].
  rewrite paths_entry_insert, lookup_insert_eq, last_segment_under by done.
  split; [done |]. intros ->. do 2 f_equal.
  induction (d +:+ "/") as [|c s IH]; [done |]. by rewrite append_cons, IH.
Qed.

Lemma relocation_replaces_directory_witness :
  ∃ cfg', rewrite_entry (Some "/mnt/train") "MODEL_WEIGHTS" sample_cfg = Ok cfg' ∧
          paths_entry cfg' "MODEL_WEIGHTS" = Some (YStr "/mnt/train/").
Proof.
  destruct (relocation_replaces_directory "/mnt/train" "MODEL_WEIGHTS" sample_cfg
              "results/models" EmptyString) as (cfg' & Hrun & Hnew & _).
  - vm_compute. reflexivity.
  - reflexivity.
  - exists cfg'. split; [exact Hrun | exact Hnew].
Defined.

(** X5: relocation flattens directories: two keys a stage puts under
    the same directory and whose loaded values end in the same file
    name hold the same path afterwards. *)
Theorem same_file_name_same_path st cfg cfg' d key1 key2 :
  stage_rewrite st cfg = Ok cfg' →
  (Some d, key1) ∈ relocated_keys st →
  (Some d, key2) ∈ relocated_keys st →
  file_name (paths_entry cfg key1) = file_name (paths_entry cfg key2) →
  paths_entry cfg' key1 = paths_entry cfg' key2.
Proof.
  intros Hrun Hin1 Hin2 Hname.
  destruct (stage_rewrite_relocates _ _ _ _ _ Hrun Hin1) as (d1 & [= <-] & s1 & Hs1 & ->).
  destruct (stage_rewrite_relocates _ _ _ _ _ Hrun Hin2) as (d2 & [= <-] & s2 & Hs2 & ->).
  rewrite Hs1, Hs2 in Hname. simpl in Hname. by injection Hname as ->.
Qed.

Lemma same_file_name_same_path_witness :
  paths_entry sample_cfg_clash_trained "TRAIN_SET"
  = paths_entry sample_cfg_clash_trained "TEST_SET" ∧
  paths_entry sample_cfg_clash_trained "TEST_SET"
  = Some (YStr "/mnt/output/Train_Set.csv").
Proof.
  split; [|vm_compute; reflexivity].
  apply (same_file_name_same_path (Training sample_train_args) sample_cfg_clash
           sample_cfg_clash_trained "/mnt/output").
  - vm_compute. reflexivity.
  - simpl. unfold train_plan.
    repeat first [apply list_elem_of_here | apply list_elem_of_further].
  - simpl. unfold train_plan.
    repeat first [apply list_elem_of_here | apply list_elem_of_further].
  - vm_compute. reflexivity.
Defined.



(** X7: [--traininglogsdir] decides [PATHS.LOGS] and nothing else: the
    rewrite with another value for it, or with none, is the same
    rewrite followed by that assignment to [PATHS.LOGS]; omitting the
    flag stores null and raises nothing. *)
Theorem traininglogsdir_only_sets_LOGS a cfg cfg' logs :
  TrainStep.rewrite_paths a cfg = Ok cfg' →
  TrainStep.rewrite_paths
    {| TrainStep.preprocessedoutputdir := TrainStep.preprocessedoutputdir a;
       TrainStep.traininglogsdir := logs;
       TrainStep.trainoutputdir := TrainStep.trainoutputdir a |} cfg
  = assign_entry "LOGS" (of_arg logs) cfg'.
Proof.
  rewrite !train_rewrite_paths_plan.
  change (train_plan {| TrainStep.preprocessedoutputdir := TrainStep.preprocessedoutputdir a;
                        TrainStep.traininglogsdir := logs;
                        TrainStep.trainoutputdir := TrainStep.trainoutputdir a |})
    with (train_plan a).
  unfold mbind, result_bind.
  destruct (rewrite_all (train_plan a) cfg) as [cfg1|] eqn:Hrun; [|done].
  destruct (rewrite_all_head (train_plan a) _ _ ltac:(done) Hrun)
    as (m & p & -> & Hm).
  destruct (rewrite_all_inv _ _ _ _ (train_plan_NoDup a) Hm Hrun)
    as (p1 & -> & _).
  simpl TrainStep.traininglogsdir.
  rewrite !(assign_entry_eq _ _ _ p1) by by rewrite lookup_insert_eq.
  intros [= <-].
  rewrite (assign_entry_eq _ _ _ (<["LOGS" := of_arg (TrainStep.traininglogsdir a)]> p1))
    by by rewrite lookup_insert_eq.
  by rewrite !insert_insert_eq.
Qed.

Lemma traininglogsdir_only_sets_LOGS_witness :
  result_entry
    (TrainStep.rewrite_paths
       {| TrainStep.preprocessedoutputdir := Some "/mnt/output";
          TrainStep.traininglogsdir := None;
          TrainStep.trainoutputdir := Some "/mnt/train" |} sample_cfg) "LOGS"
  = Some YNull.
Proof.
  assert (TrainStep.rewrite_paths sample_train_args sample_cfg = Ok sample_cfg_trained)
    as Hrun by (vm_compute; reflexivity).
  pose proof (traininglogsdir_only_sets_LOGS sample_train_args sample_cfg
                sample_cfg_trained None Hrun) as Hnone.
  etransitivity; [exact (f_equal (λ r, result_entry r "LOGS") Hnone) |].
  vm_compute. reflexivity.
Defined.

(** * Further properties of directory provisioning *)

Lemma makedirs_rev_blocked rname : ∀ fs q,
  OS.wf fs → OS.node_at fs (reverse rname) = None →
  q `prefix_of` reverse rname → OS.node_at fs q = Some OS.File →
  OS.makedirs_rev rname fs = (Raise NotADirectoryError, fs).
Proof.
  induction rname as [|tail rhead IH]; intros fs q Hwf Habs Hq Hfile.
  - rewrite reverse_nil in Hq. apply prefix_nil_inv in Hq as ->. done.
  - rewrite makedirs_rev_cons. rewrite reverse_cons in *.
    set (h := reverse rhead) in *.
    apply prefix_snoc_iff in Hq as [->|Hq]; [by rewrite Habs in Hfile |].
    case_bool_decide as Hh.
    + rewrite mkdir_snoc, Habs.
      destruct (decide (q = h)) as [->|Hne]; [by rewrite Hfile |].
      by rewrite (wf_above fs q h Hwf Hh Hq Hne) in Hfile.
    + assert (OS.node_at fs h = None) as Hnone.
      { destruct (OS.node_at fs h) eqn:E; [|done]. destruct Hh. by eexists. }
      by rewrite (IH fs q Hwf Hnone Hq Hfile).
Qed.


(** X8: on a well-formed filesystem, provisioning a path that lies
    below a regular file raises [NotADirectoryError] and changes
    nothing. *)
Theorem provision_blocked_by_file dir fs q :
  OS.wf fs → q `prefix_of` dir → q ≠ dir → OS.node_at fs q = Some OS.File →
  provision dir fs = (Raise NotADirectoryError, fs).
Proof.
  intros Hwf Hq Hne Hfile. rewrite provision_eq.
  assert (OS.node_at fs dir = None) as Habs.
  { destruct (OS.node_at fs dir) eqn:E; [|done].
    rewrite (wf_above fs q dir Hwf) in Hfile; [done | by rewrite E | done..]. }
  rewrite bool_decide_eq_false_2 by by rewrite Habs; intros [? ?].
  unfold OS.makedirs.
  apply (makedirs_rev_blocked _ _ q); by rewrite ?reverse_involutive.
Qed.

Lemma provision_blocked_by_file_witness :
  provision ["mnt"; "output"; "run1"] fs_with_file = (Raise NotADirectoryError, fs_with_file).
Proof.
  apply (provision_blocked_by_file _ _ ["mnt"; "output"]).
  - exact fs_with_file_wf.
  - by exists ["run1"].
  - discriminate.
  - vm_compute. reflexivity.
Defined.



(** * The scripts as a whole *)

Lemma st_bind_Ok_inv {S A B : Type} (m : st S A) (k : A → st S B) s b s' :
  (m ≫= k) s = (Ok b, s') → ∃ a s1, m s = (Ok a, s1) ∧ k a s1 = (Ok b, s').
Proof.
  unfold mbind, st_bind. destruct (m s) as [[a|e] s1]; [|done]. eauto.
Qed.

Lemma lift_Ok_inv {S A : Type} (r : result A) (s s' : S) a :
  lift r s = (Ok a, s') → r = Ok a ∧ s' = s.
Proof. by intros [= -> ->]. Qed.

Lemma provision_returns_exists dir fs fs' :
  OS.wf fs → provision dir fs = (Ok (), fs') →
  OS.wf fs' ∧ is_Some (OS.node_at fs' dir).
Proof.
  intros Hwf. rewrite provision_eq. case_bool_decide as Hex.
  - by intros [= <-].
  - assert (OS.node_at fs dir = None) as Habs.
    { destruct (OS.node_at fs dir) eqn:E; [|done]. destruct Hex. by eexists. }
    pose proof (makedirs_spec dir fs Hwf Habs) as Hspec.
    intros Hrun. rewrite Hrun in Hspec. destruct Hspec as [Hwf' Hfs'].
    split; [done |]. rewrite Hfs', decide_True by done. by eexists.
Qed.

Section PreprocessScript.

Context {object : Type}.
Variable resolve : string → list string.
Variable preprocess : yaml → yaml → bool → bool → bool → bool → result object.

(** X10: when the preprocessing script returns, [preprocess] was given
    the rewritten configuration with [n_weeks=None], [include_gt],
    [calculate_gt] and [classify_cat_feats] true and [load_ct] false,
    and its result is the script's; the [--preprocessedoutputdir]
    path exists, and every key relocated under it names a file
    directly inside it. *)
Theorem preprocess_main_returns a cfg fs r fs' :
  OS.wf fs →
  PreprocessStep.main object resolve preprocess a cfg fs = (Ok r, fs') →
  ∃ cfg' d,
    PreprocessStep.rewrite_paths a cfg = Ok cfg' ∧
    PreprocessStep.preprocessedoutputdir a = Some d ∧
    provision (resolve d) fs = (Ok (), fs') ∧
    OS.wf fs' ∧ is_Some (OS.node_at fs' (resolve d)) ∧
    preprocess cfg' YNull true true true false = Ok r ∧
    ∀ key, (Some d, key) ∈ preprocess_plan a →
      ∃ name, has_char "/" name = false ∧
              paths_entry cfg' key = Some (YStr ((d +:+ "/") +:+ name)).
Proof.
  intros Hwf Hrun. unfold PreprocessStep.main in Hrun.
  apply st_bind_Ok_inv in Hrun as (cfg' & fs1 & [Hcfg ->]%lift_Ok_inv & Hrun).
  apply st_bind_Ok_inv in Hrun as (d & fs1 & [Hd ->]%lift_Ok_inv & Hrun).
  apply st_bind_Ok_inv in Hrun as ([] & fs1 & Hprov & Hrun).
  apply lift_Ok_inv in Hrun as [Hpre ->].
  destruct (PreprocessStep.preprocessedoutputdir a) as [d'|] eqn:Hdir; [|done].
  injection Hd as ->.
  destruct (provision_returns_exists _ _ _ Hwf Hprov) as [Hwf' Hex].
  exists cfg', d. split_and!; [done..|].
  intros key Hin.
  destruct (stage_rewrite_relocates (Preprocessing a) _ _ _ _ Hcfg Hin)
    as (d' & [= <-] & s & _ & Hnew).
  exists (last_segment s). split; [apply last_segment_has_no_sep | done].
Qed.

End PreprocessScript.

Lemma preprocess_main_returns_witness :
  OS.wf ∅ ∧
  PreprocessStep.main string sample_resolve sample_preprocess
    sample_preprocess_args sample_cfg ∅
  = (Ok "preprocessed", fs_with_output) ∧
  sample_preprocess sample_cfg_preprocessed YNull true true true false
  = Ok "preprocessed" ∧
  is_Some (OS.node_at fs_with_output (sample_resolve "/mnt/output")).
Proof.
  split; [exact wf_empty |].
  assert (PreprocessStep.main string sample_resolve sample_preprocess
            sample_preprocess_args sample_cfg ∅
          = (Ok "preprocessed", fs_with_output)) as Hrun by (vm_compute; reflexivity).
  split; [exact Hrun |].
  destruct (preprocess_main_returns _ _ _ _ _ _ _ wf_empty Hrun)
    as (cfg' & d & Hcfg & Hd & _ & _ & Hex & Hpre & _).
  injection Hd as <-.
  vm_compute in Hcfg. injection Hcfg as <-.
  split; [exact Hpre | exact Hex].
Defined.

Section TrainScript.

Context {object : Type}.
Variable resolve : string → list string.
Variable load_dataset : yaml → result (gmap string object).
Variable multi_train :
  yaml → gmap string object → yaml → yaml →
  list (Z * list (string * object)) * result (object * list (string * object) * object).
Variable predict : object → object → yaml → result object.
Variable plot_roc : string → object → object → result object.
Variable plot_confusion_matrix : object → object → result object.

Local Abbreviation train_and_report :=
  (TrainStep.train_and_report object resolve load_dataset multi_train predict
     plot_roc plot_confusion_matrix).
Local Abbreviation main :=
  (TrainStep.main object resolve load_dataset multi_train predict
     plot_roc plot_confusion_matrix).

Lemma on_fs_Ok_inv {A : Type} (m : st (gmap (list string) OS.node) A)
    (w w' : TrainStep.world object) a :
  TrainStep.on_fs m w = (Ok a, w') →
  m (TrainStep.fs w) = (Ok a, TrainStep.fs w') ∧
  w' = {| TrainStep.fs := TrainStep.fs w'; TrainStep.calls := TrainStep.calls w |}.
Proof.
  unfold TrainStep.on_fs. destruct (m (TrainStep.fs w)) as [r fs1].
  by intros [= -> <-].
Qed.

Lemma dict_getitem_Ok {A : Type} (d : gmap string A) key v :
  dict_getitem d key = Ok v → d !! key = Some v.
Proof. unfold dict_getitem. destruct (d !! key); [by intros [= ->] | done]. Qed.

(** X11: when the training script gets through its reports, the only
    directory it provisioned is [--trainoutputdir]; [multi_train] was
    given the rewritten configuration, the loaded data set,
    [TRAIN.PATIENCE] and, as [base_log_dir], the [--traininglogsdir]
    argument itself; and the calls on the tracking run are, in order:
    the epoch metrics, the TensorBoard folder, every test metric under
    ['test_' + name], the ROC image and the confusion-matrix image. *)
Theorem train_and_report_returns a cfg0 w cfg model w1 :
  train_and_report a cfg0 w = (Ok (cfg, model), w1) →
  ∃ d data patience epochs test_metrics best_logs_date
    x_test y_test batch_size test_predictions roc_plt cm_plt,
    TrainStep.rewrite_paths a cfg0 = Ok cfg ∧
    TrainStep.trainoutputdir a = Some d ∧
    provision (resolve d) (TrainStep.fs w) = (Ok (), TrainStep.fs w1) ∧
    load_dataset cfg = Ok data ∧
    (train ← getitem cfg "TRAIN"; getitem train "PATIENCE") = Ok patience ∧
    multi_train cfg data patience (of_arg (TrainStep.traininglogsdir a))
    = (epochs, Ok (model, test_metrics, best_logs_date)) ∧
    data !! "X_test" = Some x_test ∧ data !! "Y_test" = Some y_test ∧
    (train ← getitem cfg "TRAIN"; getitem train "BATCH_SIZE") = Ok batch_size ∧
    predict model x_test batch_size = Ok test_predictions ∧
    plot_roc "Test set" y_test test_predictions = Ok roc_plt ∧
    plot_confusion_matrix y_test test_predictions = Ok cm_plt ∧
    TrainStep.calls w1
    = TrainStep.calls w ++
      concat (imap (λ i e, forwarded (new_models (take (S i) epochs)) e.2) epochs) ++
      [TrainStep.run_log "TensorBoard logs folder" best_logs_date] ++
      forwarded_as "test_" test_metrics ++
      [TrainStep.run_log_image "ROC" roc_plt;
       TrainStep.run_log_image "Confusion matrix" cm_plt].
Proof.
  intros Hrun. unfold TrainStep.train_and_report in Hrun.
  apply st_bind_Ok_inv in Hrun as (cfg1 & w2 & [Hcfg ->]%lift_Ok_inv & Hrun).
  apply st_bind_Ok_inv in Hrun as (d & w2 & [Hd ->]%lift_Ok_inv & Hrun).
  apply st_bind_Ok_inv in Hrun as ([] & w2 & [Hprov Hw2]%on_fs_Ok_inv & Hrun).
  apply st_bind_Ok_inv in Hrun as (data & w3 & [Hdata ->]%lift_Ok_inv & Hrun).
  apply st_bind_Ok_inv in Hrun as (patience & w3 & [Hpat ->]%lift_Ok_inv & Hrun).
  apply st_bind_Ok_inv in Hrun as (base & w3 & [Hbase ->]%lift_Ok_inv & Hrun).
  destruct (multi_train cfg1 data patience base) as [epochs outcome] eqn:Htrain.
  apply st_bind_Ok_inv in Hrun as (cb & w3 & Hepochs & Hrun).
  rewrite epochs_end_eq in Hepochs. injection Hepochs as _ <-.
  apply st_bind_Ok_inv in Hrun as ([[model1 metrics] best] & w3 & [Hout ->]%lift_Ok_inv & Hrun).
  apply st_bind_Ok_inv in Hrun as ([] & w3 & Hlog & Hrun).
  injection Hlog as <-.
  apply st_bind_Ok_inv in Hrun as (x_test & w3 & [Hx ->]%lift_Ok_inv & Hrun).
  apply st_bind_Ok_inv in Hrun as (batch & w3 & [Hbatch ->]%lift_Ok_inv & Hrun).
  apply st_bind_Ok_inv in Hrun as (preds & w3 & [Hpred ->]%lift_Ok_inv & Hrun).
  apply st_bind_Ok_inv in Hrun as ([] & w3 & Htest & Hrun).
  rewrite for_each_do_call in Htest. injection Htest as <-.
  apply st_bind_Ok_inv in Hrun as (y_test & w3 & [Hy ->]%lift_Ok_inv & Hrun).
  apply st_bind_Ok_inv in Hrun as (roc & w3 & [Hroc ->]%lift_Ok_inv & Hrun).
  apply st_bind_Ok_inv in Hrun as ([] & w3 & Hlogroc & Hrun).
  injection Hlogroc as <-.
  apply st_bind_Ok_inv in Hrun as (y_test' & w3 & [Hy' ->]%lift_Ok_inv & Hrun).
  apply st_bind_Ok_inv in Hrun as (cm & w3 & [Hcm ->]%lift_Ok_inv & Hrun).
  apply st_bind_Ok_inv in Hrun as ([] & w3 & Hlogcm & Hrun).
  injection Hlogcm as <-.
  injection Hrun as -> -> <-.
  rewrite Hy in Hy'. injection Hy' as <-.
  destruct (TrainStep.trainoutputdir a) as [d'|] eqn:Hdir; [|done].
  injection Hd as ->.
  assert (base = of_arg (TrainStep.traininglogsdir a)) as ->.
  { pose proof Hcfg as Hinv.
    apply train_rewrite_inv in Hinv as (m & p & p' & _ & _ & -> & Hlogs & _).
    unfold_result. rewrite lookup_insert_eq in Hbase. simpl in Hbase.
    rewrite Hlogs in Hbase. by injection Hbase as <-. }
  subst outcome.
  exists d, data, patience, epochs, metrics, best, x_test, y_test, batch, preds, roc, cm.
  split_and!; try done.
  - by apply dict_getitem_Ok.
  - by apply dict_getitem_Ok.
  - rewrite Hw2. simpl. rewrite <- !app_assoc. reflexivity.
Qed.

(** X12: when the loaded configuration has no [PATHS.MODEL_WEIGHTS],
    the training script makes all its reports and then raises
    [KeyError('MODEL_WEIGHTS')] without saving the model. *)
Theorem missing_weights_key_raises a cfg0 w cfg model w1 :
  train_and_report a cfg0 w = (Ok (cfg, model), w1) →
  paths_entry cfg0 "MODEL_WEIGHTS" = None →
  main a cfg0 w = (Raise (KeyError "MODEL_WEIGHTS"), w1).
Proof.
  intros Hreport Hnone.
  pose proof (train_and_report_cfg _ _ _ _ _ _ _ _ _ _ _ _ Hreport) as Hcfg.
  unfold TrainStep.main. rewrite st_bind_eq, Hreport.
  by rewrite (save_weights_after_rewrite _ _ _ _ _ Hcfg), Hnone.
Qed.

End TrainScript.

Lemma train_and_report_returns_witness :
  TrainStep.train_and_report string sample_resolve sample_load_dataset
    sample_multi_train sample_predict sample_plot_roc sample_plot_confusion_matrix
    sample_train_args sample_cfg sample_world
  = (Ok (sample_cfg_trained, "model"), sample_world_reported) ∧
  TrainStep.calls sample_world_reported = sample_calls ∧
  provision (sample_resolve "/mnt/train") ∅ = (Ok (), TrainStep.fs sample_world_reported).
Proof.
  assert (TrainStep.train_and_report string sample_resolve sample_load_dataset
            sample_multi_train sample_predict sample_plot_roc
            sample_plot_confusion_matrix sample_train_args sample_cfg sample_world
          = (Ok (sample_cfg_trained, "model"), sample_world_reported)) as Hreport
    by (vm_compute; reflexivity).
  split; [exact Hreport |].
  destruct (train_and_report_returns _ _ _ _ _ _ _ _ _ _ _ _ Hreport)
    as (d & data & patience & epochs & test_metrics & best & x & y & b & preds
        & roc & cm & _ & Hd & Hprov & Hdata & Hpat & Htrain & _ & _ & _ & _
        & Hroc & Hcm & Hcalls).
  injection Hd as <-. injection Hroc as <-. injection Hcm as <-.
  injection Htrain as <- <- <-.
  split; [rewrite Hcalls; vm_compute; reflexivity | exact Hprov].
Defined.

Lemma missing_weights_key_raises_witness :
  paths_entry sample_cfg_no_weights "MODEL_WEIGHTS" = None ∧
  TrainStep.main string sample_resolve sample_load_dataset
    sample_multi_train sample_predict sample_plot_roc sample_plot_confusion_matrix
    sample_train_args sample_cfg_no_weights sample_world
  = (Raise (KeyError "MODEL_WEIGHTS"), sample_world_reported).
Proof.
  assert (paths_entry sample_cfg_no_weights "MODEL_WEIGHTS" = None) as Hnone
    by (vm_compute; reflexivity).
  split; [exact Hnone |].
  apply (missing_weights_key_raises _ _ _ _ _ _ _ _ _ sample_cfg_no_weights_trained "model");
    [vm_compute; reflexivity | exact Hnone].
Defined.

(** * Further properties of the callback *)

Section Models.

Context {object : Type}.
Implicit Types (w : TrainStep.world object) (self : TrainStep.LogRunMetrics).
Implicit Types (log : list (string * object)) (logs : list (list (string * object))).

Lemma model_epochs_end_from self log0 log1 logs w :
  TrainStep.epochs_end self (model_epochs (log0 :: log1 :: logs)) w
  = (Ok {| TrainStep.model_counter := TrainStep.model_counter self + 1 |},
     logged w (forwarded (TrainStep.model_counter self) log0 ++
               forwarded (TrainStep.model_counter self + 1) log1 ++
               concat (map (forwarded (TrainStep.model_counter self + 1)) logs))).
Proof.
  unfold model_epochs. rewrite imap_cons. cbv beta. rewrite epochs_end_cons.
  change (bump self (Z.of_nat 0)) with self.
  rewrite imap_cons. unfold compose. cbv beta. rewrite epochs_end_cons.
  change (bump self (Z.of_nat 1))
    with {| TrainStep.model_counter := TrainStep.model_counter self + 1 |}.
  rewrite (imap_ext _ (λ i log, (Z.of_nat (S (1 + i)), log))) by done.
  rewrite later_epochs_end by lia.
  by rewrite !logged_logged.
Qed.

Lemma models_end (models : list (list (string * object) * list (string * object) *
                                 list (list (string * object)))) : ∀ self w,
  TrainStep.epochs_end self
    (concat (map (λ m, model_epochs (m.1.1 :: m.1.2 :: m.2)) models)) w
  = (Ok {| TrainStep.model_counter :=
             TrainStep.model_counter self + Z.of_nat (length models) |},
     logged w (concat (imap (λ j m,
        forwarded (TrainStep.model_counter self + Z.of_nat j) m.1.1 ++
        forwarded (TrainStep.model_counter self + Z.of_nat (S j)) m.1.2 ++
        concat (map (forwarded (TrainStep.model_counter self + Z.of_nat (S j))) m.2))
        models))).
Proof.
  induction models as [|[[log0 log1] logs] models IH]; intros self w.
  - simpl. rewrite logged_nil. destruct self as [c]. simpl. by rewrite Z.add_0_r.
  - rewrite map_cons, concat_cons. cbn [fst snd]. rewrite epochs_end_app.
    pose proof (epochs_end_eq self (model_epochs (log0 :: log1 :: logs)) w) as Hcount.
    rewrite model_epochs_end_from in Hcount. injection Hcount as Hcount _.
    rewrite <- Hcount, model_epochs_end_from. cbn [fst snd].
    rewrite IH, logged_logged. simpl TrainStep.model_counter. f_equal.
    + do 2 f_equal. rewrite length_cons. lia.
    + f_equal. rewrite imap_cons, concat_cons. cbn [fst snd].
      rewrite Z.add_0_r, <- !app_assoc.
      replace (TrainStep.model_counter self + Z.of_nat 1)
        with (TrainStep.model_counter self + 1) by lia.
      do 3 f_equal. f_equal. apply imap_ext. intros j m _. unfold compose.
      replace (TrainStep.model_counter self + 1 + Z.of_nat j)
        with (TrainStep.model_counter self + Z.of_nat (S j)) by lia.
      replace (TrainStep.model_counter self + 1 + Z.of_nat (S j))
        with (TrainStep.model_counter self + Z.of_nat (S (S j))) by lia.
      done.
Qed.

(** X13: when several models are trained one after the other, each
    for at least two epochs, the metrics of model number [j] (from 0)
    are logged under ['model' + str(j) + '_'] for its epoch 0 and under
    ['model' + str(j+1) + '_'] for all its later epochs, so the epoch 0
    of a model shares its prefix with the later epochs of the model
    before it; the counter ends at the number of models. *)
Theorem every_model_split_over_two_prefixes
    (models : list (list (string * object) * list (string * object) *
                    list (list (string * object)))) w :
  TrainStep.epochs_end TrainStep.LogRunMetrics_init
    (concat (map (λ m, model_epochs (m.1.1 :: m.1.2 :: m.2)) models)) w
  = (Ok {| TrainStep.model_counter := Z.of_nat (length models) |},
     {| TrainStep.fs := TrainStep.fs w;
        TrainStep.calls :=
          TrainStep.calls w ++
          concat (imap (λ j m,
            forwarded (Z.of_nat j) m.1.1 ++
            forwarded (Z.of_nat (S j)) m.1.2 ++
            concat (map (forwarded (Z.of_nat (S j))) m.2)) models) |}).
Proof. by rewrite models_end. Qed.

End Models.

(** * The kept file name *)

Lemma split_two_segments sep s :
  has_char sep s = true → ∃ seg1 seg2 rest, split sep s = seg1 :: seg2 :: rest.
Proof.
  induction s as [|c s IH]; simpl; [done |].
  destruct (Ascii.eqb c sep) eqn:Hc; simpl.
  - intros _. pose proof (split_not_nil sep s) as Hne.
    destruct (split sep s) as [|seg rest]; [done |]. by eexists _, _, _.
  - intros Hs. destruct (IH Hs) as (seg1 & seg2 & rest & ->). by eexists _, _, _.
Qed.

(** X14: [s.split('/')[-1]] is what follows the last ['/'] of [s]: it
    holds no ['/'], and [s] is either that segment alone or some
    prefix, a ['/'], and that segment. *)
Theorem last_segment_is_suffix_after_last_separator s :
  has_char "/" (last_segment s) = false ∧
  (s = last_segment s ∨ ∃ pre, s = (pre +:+ "/") +:+ last_segment s).
Proof.
  split; [apply last_segment_has_no_sep |].
  induction s as [|c s IH]; [by left |].
  destruct (has_char "/" (String c s)) eqn:Hsep;
    [|left; by rewrite last_segment_no_sep].
  right. simpl in Hsep. unfold last_segment in *. simpl.
  destruct (Ascii.eqb c "/") eqn:Hc.
  - apply Ascii.eqb_eq in Hc as ->.
    pose proof (split_not_nil "/" s) as Hne.
    destruct (split "/" s) as [|seg rest] eqn:Hsplit; [done |].
    rewrite last_cons_cons.
    destruct IH as [IH|[pre IH]].
    + exists EmptyString. by rewrite append_nil_l, append_cons, append_nil_l, <- IH.
    + exists (String "/" pre). by rewrite !append_cons, <- IH.
  - simpl in Hsep.
    destruct (split_two_segments _ _ Hsep) as (seg1 & seg2 & rest & Hsplit).
    rewrite Hsplit in *. rewrite !last_cons_cons in *.
    destruct IH as [IH|[pre IH]].
    + exfalso. pose proof (last_segment_has_no_sep s) as Hno.
      unfold last_segment in Hno. rewrite Hsplit, last_cons_cons, <- IH in Hno.
      congruence.
    + exists (String c pre). by rewrite !append_cons, <- IH.
Qed.

(** * The training script and the filesystem *)

Section TrainFilesystem.

Context {object : Type}.
Variable resolve : string → list string.
Variable load_dataset : yaml → result (gmap string object).
Variable multi_train :
  yaml → gmap string object → yaml → yaml →
  list (Z * list (string * object)) * result (object * list (string * object) * object).
Variable predict : object → object → yaml → result object.
Variable plot_roc : string → object → object → result object.
Variable plot_confusion_matrix : object → object → result object.










End TrainFilesystem.
